(** * A shallow embedding of [ypms.py] (YPMS package manager)

    The pure helpers (platform matching, package-ref and dependency
    parsing, release-tag resolution) are translated function by function.
    The manager is modelled in a state-and-exception monad: Python's
    exceptions keep the side effects performed before they were raised,
    so a failing computation still returns the state it reached. *)

From Stdlib Require Import String Ascii List Bool Arith ZArith Lia DecimalString.
Import ListNotations.
Open Scope list_scope.
Open Scope string_scope.
Set Warnings "-register-all".

(* ================================================================== *)
(** ** Python string helpers (ASCII) *)

Module Py.

(** Characters for which Python's [str.isspace] holds, within ASCII:
    [\t \n \x0b \x0c \r], [\x1c]..[\x1f] and the space. *)
Definition is_space (c : ascii) : bool :=
  let n := nat_of_ascii c in
  Nat.leb 9 n && Nat.leb n 13 || Nat.leb 28 n && Nat.leb n 32.

Fixpoint lstrip (s : string) : string :=
  match s with
  | EmptyString => EmptyString
  | String c r => if is_space c then lstrip r else s
  end.

Definition rstrip (s : string) : string :=
  string_of_list_ascii (rev (list_ascii_of_string
    (lstrip (string_of_list_ascii (rev (list_ascii_of_string s)))))).

(** [str.strip()] *)
Definition strip (s : string) : string := rstrip (lstrip s).

(** [str.lower()] on ASCII: only ['A'..'Z'] change. *)
Definition lower_char (c : ascii) : ascii :=
  let n := nat_of_ascii c in
  if Nat.leb 65 n && Nat.leb n 90 then ascii_of_nat (n + 32) else c.

Fixpoint lower (s : string) : string :=
  match s with
  | EmptyString => EmptyString
  | String c r => String (lower_char c) (lower r)
  end.

(** [c in s] for a one-character [c]. *)
Fixpoint contains (c : ascii) (s : string) : bool :=
  match s with
  | EmptyString => false
  | String d r => Ascii.eqb c d || contains c r
  end.

(** [s.split(c, 1)] when [c in s]: the parts before and after the first
    [c]; [None] when [c] does not occur (Python then returns [[s]]). *)
Fixpoint split_once (c : ascii) (s : string) : option (string * string) :=
  match s with
  | EmptyString => None
  | String d r =>
      if Ascii.eqb c d then Some (EmptyString, r)
      else match split_once c r with
           | Some (a, b) => Some (String d a, b)
           | None => None
           end
  end.

(** [str.split()] with no argument: maximal runs of non-space
    characters. *)
Fixpoint split_ws_aux (cur : string) (s : string) : list string :=
  match s with
  | EmptyString => if String.eqb cur "" then [] else [cur]
  | String c r =>
      if is_space c then
        app (if String.eqb cur "" then [] else [cur]) (split_ws_aux "" r)
      else split_ws_aux (cur ++ String c EmptyString) r
  end.

Definition split_ws (s : string) : list string := split_ws_aux "" s.

(** Python truthiness of an optional string ([None] and [""] are
    false). *)
Definition truthy (o : option string) : bool :=
  match o with
  | Some s => negb (String.eqb s "")
  | None => false
  end.

(** [a or b] on optional strings. *)
Definition or_else (a b : option string) : option string :=
  if truthy a then a else b.

(** [s.replace(old, new)] for a non-empty [old]: the occurrences of
    [old], found left to right without overlapping an earlier one, are
    replaced.  [skip] counts the characters of the occurrence just
    replaced that are still to be passed over. *)
Fixpoint replace_aux (old new : string) (skip : nat) (s : string) : string :=
  match s with
  | EmptyString => EmptyString
  | String c r =>
      match skip with
      | S k => replace_aux old new k r
      | O => if String.prefix old s
             then new ++ replace_aux old new (String.length old - 1) r
             else String c (replace_aux old new O r)
      end
  end.

Definition replace (s old new : string) : string := replace_aux old new O s.

(** [needle in hay] on strings. *)
Fixpoint contains_sub (needle hay : string) : bool :=
  String.prefix needle hay ||
  match hay with
  | EmptyString => false
  | String _ r => contains_sub needle r
  end.

End Py.

(* ================================================================== *)
(** ** Python dicts: insertion-ordered association lists *)

Module Dict.

Definition t (V : Type) := list (string * V).

Fixpoint get {V} (d : t V) (k : string) : option V :=
  match d with
  | [] => None
  | (k', v) :: r => if String.eqb k k' then Some v else get r k
  end.

Definition mem {V} (d : t V) (k : string) : bool :=
  match get d k with Some _ => true | None => false end.

(** [d[k] = v]: an existing key keeps its position, a new key is
    appended. *)
Fixpoint set {V} (d : t V) (k : string) (v : V) : t V :=
  match d with
  | [] => [(k, v)]
  | (k', v') :: r => if String.eqb k k' then (k', v) :: r
                     else (k', v') :: set r k v
  end.

(** [d.pop(k)] on a present key (and [d.pop(k, None)] in general). *)
Fixpoint pop {V} (d : t V) (k : string) : t V :=
  match d with
  | [] => []
  | (k', v') :: r => if String.eqb k k' then r else (k', v') :: pop r k
  end.

Definition values {V} (d : t V) : list V := map snd d.

End Dict.

(* ================================================================== *)
(** ** Platform helpers: [_norm_os], [_norm_arch], [_when_matches] *)

(** [_norm_os()] from [sys.platform]. *)
Definition _norm_os (sys_platform : string) : string :=
  if String.prefix "win" sys_platform then "windows"
  else if String.prefix "darwin" sys_platform then "darwin"
  else "linux".

(** The normalisation applied (after lowercasing) to the machine name and
    to each entry of a [when.arch] list. *)
Definition norm_arch_name (a : string) : string :=
  if existsb (String.eqb a) ["x86_64"; "amd64"; "x64"] then "x86_64"
  else if existsb (String.eqb a) ["arm64"; "aarch64"] then "arm64"
  else a.

(** [_norm_arch()] from [platform.machine()]. *)
Definition _norm_arch (machine : string) : string :=
  let m := Py.lower machine in
  if existsb (String.eqb m) ["x86_64"; "amd64"; "x64"] then "x86_64"
  else if existsb (String.eqb m) ["arm64"; "aarch64"] then "arm64"
  else if String.eqb m "" then "unknown" else m.

(** A step's [when] mapping: each key is either absent or a list of
    strings. *)
Record When := mkWhen { w_os : option (list string); w_arch : option (list string) }.

(** The host, as the two values the probes read. *)
Record Host := mkHost { sys_platform : string; machine : string }.

Definition _when_matches (h : Host) (when : option When) : bool :=
  match when with
  | None => true
  | Some {| w_os := None; w_arch := None |} => true   (* [not {}] *)
  | Some w =>
      let os_ok :=
        match w_os w with
        | Some l => existsb (String.eqb (_norm_os (sys_platform h))) (map Py.lower l)
        | None => true
        end in
      let arch_ok :=
        match w_arch w with
        | Some l => existsb (String.eqb (_norm_arch (machine h)))
                            (map (fun a => norm_arch_name (Py.lower a)) l)
        | None => true
        end in
      os_ok && arch_ok
  end.

(* ================================================================== *)
(** ** Exceptions and JSON values *)

(** [YPMSError] is the domain error; every other Python exception
    ([KeyError], [RecursionError], ...) is an [OtherError]. *)
Inductive Exn :=
| YPMSError (msg : string)
| OtherError (msg : string).

(** Decoded JSON, as [json.load] returns it (numbers restricted to
    integers). *)
Inductive json :=
| JNull
| JBool (b : bool)
| JInt (z : Z)
| JStr (s : string)
| JList (l : list json)
| JObj (fields : list (string * json)).

(** Python truthiness of a JSON value. *)
Definition json_truthy (j : json) : bool :=
  match j with
  | JNull => false
  | JBool b => b
  | JInt z => negb (Z.eqb z 0)
  | JStr s => negb (String.eqb s "")
  | JList l => match l with [] => false | _ => true end
  | JObj f => match f with [] => false | _ => true end
  end.

(** [obj.get(k)] on a JSON object ([None] is [JNull]). *)
Definition json_get (f : list (string * json)) (k : string) : json :=
  match Dict.get f k with Some v => v | None => JNull end.

Section Parsing.

(** Python's [str()] of a JSON list or object (its [repr]); no claim
    depends on its text, so it is left as a parameter. *)
Variable py_str_container : json -> string.

(** [str(x)] for a decoded JSON value. *)
Definition py_str (j : json) : string :=
  match j with
  | JNull => "None"
  | JBool true => "True"
  | JBool false => "False"
  | JInt z => NilZero.string_of_int (Z.to_int z)
  | JStr s => s
  | JList _ | JObj _ => py_str_container j
  end.

(** [YPMSManager._split_pkg_ref] *)
Definition _split_pkg_ref (ref : string) : Exn + (string * string) :=
  match Py.split_once "/" ref with
  | None => inl (YPMSError "Package ref must be 'USER/PACKAGE'")
  | Some (user, pkg) =>
      let user := Py.strip user in
      let pkg := Py.strip pkg in
      if String.eqb user "" || String.eqb pkg "" then inl (YPMSError "Invalid package ref")
      else inr (user, pkg)
  end.

(** The [@VERSION] split at the end of [_parse_dep]'s string branch:
    [pref, ver = body.split("@", 1)] and the stripping that follows. *)
Definition split_version (body : string) : string * option string :=
  match Py.split_once "@" body with
  | Some (pref, ver) =>
      let ver := Py.strip ver in
      (Py.strip pref, if String.eqb ver "" then None else Some ver)
  | None => (Py.strip body, None)
  end.

(** The string branch of [YPMSManager._parse_dep]. *)
Definition _parse_dep_str (dep : string) : option string * string * option string :=
  let body := Py.strip dep in
  let '(src_name, body) :=
    match Py.split_once ":" body with
    | Some (pre, post) =>
        if Py.contains "/" post
        then (let s := Py.strip pre in if String.eqb s "" then None else Some s, post)
        else (None, body)
    | None => (None, body)
    end in
  let '(pref, ver) := split_version body in
  (src_name, pref, ver).

(** [YPMSManager._parse_dep] *)
Definition _parse_dep (dep : json) : Exn + (option string * string * option string) :=
  match dep with
  | JStr s => inr (_parse_dep_str s)
  | JObj f =>
      let pref := json_get f "package" in
      let ver := json_get f "version" in
      let sname := json_get f "source" in
      match pref with
      | JStr p =>
          if String.eqb p "" then inl (YPMSError "Invalid dependency object: missing 'package'")
          else inr (if json_truthy sname then Some (Py.strip (py_str sname)) else None,
                    Py.strip p,
                    if json_truthy ver then Some (Py.strip (py_str ver)) else None)
      | _ => inl (YPMSError "Invalid dependency object: missing 'package'")
      end
  | _ => inl (YPMSError "Invalid dependency entry")
  end.

End Parsing.

(* ================================================================== *)
(** ** Package metadata and [YPMSSource.resolve_release_tag] *)

(** The fields of a package-info document the core reads. *)
Record PkgInfo := mkPkgInfo {
  pi_default : option string;          (* package.release.default *)
  pi_alias : Dict.t string;            (* package.release.alias, default {} *)
  pi_list : list string;               (* package.release.list, default [] *)
  pi_release_url : string              (* package.release.url *)
}.

(** [YPMSSource.resolve_release_tag]; [None] is Python's [None]. *)
Definition resolve_release_tag (pkg_info : PkgInfo) (tag : option string) : option string :=
  let tag :=
    if Py.truthy tag then tag
    else
      let tag := pi_default pkg_info in
      let tag := if Py.truthy tag then tag else Dict.get (pi_alias pkg_info) "latest" in
      if Py.truthy tag then tag
      else match pi_list pkg_info with
           | x :: _ => Some x
           | [] => tag
           end in
  match tag with
  | Some t => match Dict.get (pi_alias pkg_info) t with
              | Some v => Some v
              | None => Some t
              end
  | None => None
  end.

(** The release-info document: [release.depends] and [release.guides]. *)
Record Step := mkStep {
  s_type : option string;      (* step.get("type") *)
  s_content : json;            (* step.get("content") *)
  s_when : option When         (* step.get("when") *)
}.

(** A guide object: a single step, or a container [{steps: [...]}]. *)
Inductive GuideObj :=
| GSingle (s : Step)
| GSteps (l : list Step).

Record Release := mkRelease {
  rel_depends : list json;
  rel_guides : Dict.t GuideObj
}.

(* ================================================================== *)
(** ** Manager state and the state-and-exception monad *)

(** A record of [installed.json]. *)
Record Rec := mkRec {
  r_source : string;
  r_package : string;
  r_version : option string;
  r_explicit : bool;
  r_installed_at : string
}.

(** Files under the environment directories: path -> content. *)
Definition Files := Dict.t string.

(** The state a manager command acts on: [self.sources_map], the
    content of [sources.json], the [envs] mapping of [installed.json],
    the files, the environment directories created so far, and
    [self._force_flag]. *)
Record St := mkSt {
  st_sources : Dict.t string;
  st_sources_json : Dict.t string;
  st_ledger : Dict.t (Dict.t Rec);
  st_files : Files;
  st_envdirs : list string;
  st_force : bool
}.

Definition M (A : Type) := St -> (Exn + A) * St.

Definition ret {A} (a : A) : M A := fun s => (inr a, s).
Definition bind {A B} (m : M A) (k : A -> M B) : M B :=
  fun s => match m s with
           | (inl e, s') => (inl e, s')
           | (inr a, s') => k a s'
           end.
Definition raise {A} (e : Exn) : M A := fun s => (inl e, s).
Definition lift {A} (r : Exn + A) : M A := fun s => (r, s).
Definition get_st : M St := fun s => (inr s, s).
Definition put_st (s : St) : M unit := fun _ => (inr tt, s).

Notation "x <- m ;; k" := (bind m (fun x => k))
  (at level 61, m at next level, right associativity).
Notation "' p <- m ;; k" := (bind m (fun x => match x with p => k end))
  (at level 61, p pattern, m at next level, right associativity).
Notation "m ;;; k" := (bind m (fun _ => k))
  (at level 61, right associativity).

(** [try: m except YPMSError: pass] *)
Definition try_ypms {A} (m : M A) : M unit :=
  fun s => match m s with
           | (inl (YPMSError _), s') => (inr tt, s')
           | (inl e, s') => (inl e, s')
           | (inr _, s') => (inr tt, s')
           end.

Definition set_force (b : bool) : M unit :=
  fun s => (inr tt, {| st_sources := st_sources s; st_sources_json := st_sources_json s;
                       st_ledger := st_ledger s; st_files := st_files s;
                       st_envdirs := st_envdirs s; st_force := b |}).

Definition set_ledger (l : Dict.t (Dict.t Rec)) : M unit :=
  fun s => (inr tt, {| st_sources := st_sources s; st_sources_json := st_sources_json s;
                       st_ledger := l; st_files := st_files s;
                       st_envdirs := st_envdirs s; st_force := st_force s |}).

(** [self.sources_map = m; self.save_sources()] *)
Definition set_sources_and_save (m : Dict.t string) : M unit :=
  fun s => (inr tt, {| st_sources := m; st_sources_json := m;
                       st_ledger := st_ledger s; st_files := st_files s;
                       st_envdirs := st_envdirs s; st_force := st_force s |}).

(** [a or b] where [b] is a string. *)
Definition or_s (a : option string) (b : string) : string :=
  match a with Some s => if String.eqb s "" then b else s | None => b end.

(** f"{x}" for an optional string. *)
Definition show_opt (o : option string) : string :=
  match o with Some s => s | None => "None" end.

(** [posixpath.join(a, b)] *)
Definition path_join (a b : string) : string :=
  if String.prefix "/" b then b
  else if String.eqb a "" then b
  else if String.eqb (substring (String.length a - 1) 1 a) "/" then a ++ b
  else a ++ "/" ++ b.

(** [sorted(keys)[0]]: the least key in code-point order. *)
Fixpoint min_key (k : string) (ks : list string) : string :=
  match ks with
  | [] => k
  | k' :: r => min_key (if String.ltb k' k then k' else k) r
  end.

(** The substitution context [pkg_ctx]. *)
Record Ctx := mkCtx { c_package_ref : string; c_source_name : string; c_release_id : option string }.

(** A constructed [YPMSSource]: its name and config URL. *)
Record Source := mkSource { src_name : string; src_url : string }.

(** An entry of [_find_dependents]'s result. *)
Record Dependent := mkDependent {
  dependent_source : string;
  dependent_package : string;
  dependent_version : string;
  required_version : string
}.

(* ================================================================== *)
(** ** Ledger and sources operations of [YPMSManager] *)

(** [_db_key] *)
Definition _db_key (source : option string) (package_ref : string) : string :=
  or_s source "yopr" ++ ":" ++ package_ref.

Definition env_records (l : Dict.t (Dict.t Rec)) (env : string) : Dict.t Rec :=
  match Dict.get l env with Some e => e | None => [] end.

(** [_db_mark_installed], with [now] the formatted UTC time. *)
Definition _db_mark_installed (now env source package_ref : string) (version : option string)
    (explicit : bool) : M unit :=
  s <- get_st;;
  let envs := st_ledger s in
  let e := env_records envs env in
  let key := _db_key (Some source) package_ref in
  set_ledger (Dict.set envs env
    (Dict.set e key (mkRec source package_ref version explicit now))).

(** [_db_mark_uninstalled] *)
Definition _db_mark_uninstalled (env source package_ref : string) : M unit :=
  s <- get_st;;
  let envs := st_ledger s in
  let key := _db_key (Some source) package_ref in
  match Dict.get envs env with
  | Some e => if Dict.mem e key then set_ledger (Dict.set envs env (Dict.pop e key)) else ret tt
  | None => ret tt
  end.

(** [is_installed] *)
Definition is_installed (env source package_ref : string) : M bool :=
  s <- get_st;;
  ret (Dict.mem (env_records (st_ledger s) env) (_db_key (Some source) package_ref)).

(** [add_source] (the resolver cache is not part of the state). *)
Definition add_source (name url : string) : M unit :=
  s <- get_st;;
  set_sources_and_save (Dict.set (st_sources s) name url).

(** [remove_source] *)
Definition remove_source (name : string) : M unit :=
  s <- get_st;;
  if Dict.mem (st_sources s) name
  then set_sources_and_save (Dict.pop (st_sources s) name)
  else ret tt.

(** [_get_source]: picks the source name and looks up its config URL;
    fetching the config is part of [fetch_package_info] below. *)
Definition _get_source (source_name : option string) : M Source :=
  s <- get_st;;
  let srcs := st_sources s in
  name <- (if Py.truthy source_name then ret (or_s source_name "")
           else if Dict.mem srcs "yopr" then ret "yopr"
           else match map fst srcs with
                | [] => raise (YPMSError "No sources configured.")
                | k :: ks => ret (min_key k ks)
                end);;
  let url := Dict.get srcs name in
  if Py.truthy url then ret (mkSource name (or_s url ""))
  else raise (YPMSError ("Unknown source: " ++ name)).

(** [ensure_env_dir] *)
Definition ensure_env_dir (envs_dir env_id : string) : M string :=
  let env_dir := path_join envs_dir env_id in
  fun s => (inr env_dir,
            {| st_sources := st_sources s; st_sources_json := st_sources_json s;
               st_ledger := st_ledger s; st_files := st_files s;
               st_envdirs := if existsb (String.eqb env_dir) (st_envdirs s) then st_envdirs s
                             else app (st_envdirs s) [env_dir];
               st_force := st_force s |}).

(* ================================================================== *)
(** ** Dependents, update compatibility, guide engine, installer *)

Section Manager.

Variable py_str_container : json -> string.

(** The host the probes see. *)
Variable host : Host.

(** The handlers of the [license-agreement-url], [python], [shell],
    [download-file]/[download-only] and [remove-file] steps, by step type:
    given the step content, the environment directory and the context,
    they act on the files and return the step result or raise. *)
Variable ext_step : string -> json -> string -> Ctx -> Files -> (Exn + string) * Files.

(** [YPMSSource(...)] followed by [fetch_package_info(user, pkg)] (config
    and package document through the JSON cache). *)
Variable fetch_package_info : Source -> string -> string -> Exn + PkgInfo.

(** [fetch_release_info(pkg_info, release_id)] *)
Variable fetch_release_info : PkgInfo -> option string -> Exn + Release.

(** [self.envs_dir], the current UTC time as written in records, and
    whether the answer read at the [Continue anyway? [y/N]] prompt is
    [y] or [yes]. *)
Variable envs_dir : string.
Variable now : string.
Variable stdin_yes : bool.

Definition parse_dep := _parse_dep py_str_container.

(** The inner loop of [_find_dependents] over one release's depends. *)
Fixpoint deps_scan (target_source target_pref dep_src_name pkg_ref : string)
    (version : option string) (deps : list json) : M (list Dependent) :=
  match deps with
  | [] => ret []
  | d :: r =>
      '(ds, dr, dv) <- lift (parse_dep d);;
      let ds := or_s ds target_source in
      if String.eqb ds target_source && String.eqb dr target_pref then
        req_version <-
          (if Py.truthy dv then
             '(dep_user, dep_pkg) <- lift (_split_pkg_ref dr);;
             dep_src_obj <- _get_source (Some ds);;
             dep_pkg_info <- lift (fetch_package_info dep_src_obj dep_user dep_pkg);;
             ret (resolve_release_tag dep_pkg_info dv)
           else ret None);;
        rest <- deps_scan target_source target_pref dep_src_name pkg_ref version r;;
        ret (mkDependent dep_src_name pkg_ref (or_s version "") (or_s req_version "") :: rest)
      else deps_scan target_source target_pref dep_src_name pkg_ref version r
  end.

(** The outer loop of [_find_dependents] over the env's records. *)
Fixpoint records_scan (target_source target_pref : string) (recs : list Rec)
    : M (list Dependent) :=
  match recs with
  | [] => ret []
  | meta :: r =>
      '(u, p) <- lift (_split_pkg_ref (r_package meta));;
      src <- _get_source (Some (r_source meta));;
      pkg_info <- lift (fetch_package_info src u p);;
      rel <- lift (fetch_release_info pkg_info (r_version meta));;
      here <- deps_scan target_source target_pref (r_source meta) (r_package meta)
                        (r_version meta) (rel_depends rel);;
      rest <- records_scan target_source target_pref r;;
      ret (app here rest)
  end.

(** [_find_dependents] *)
Definition _find_dependents (env target_source target_pref : string) : M (list Dependent) :=
  s <- get_st;;
  records_scan target_source target_pref (Dict.values (env_records (st_ledger s) env)).

(** The message [_check_update_compat] appends for a blocking dependent. *)
Definition blocker_msg (target_source target_pref new_version : string) (d : Dependent) : string :=
  dependent_source d ++ "/" ++ dependent_package d ++ "@" ++ dependent_version d
  ++ " requires " ++ target_source ++ "/" ++ target_pref ++ "@" ++ required_version d
  ++ ", but planned " ++ new_version.

(** The loop of [_check_update_compat] over the dependents. *)
Fixpoint compat_loop (target_source target_pref new_version : string)
    (ds : list Dependent) : list string :=
  match ds with
  | [] => []
  | d :: r =>
      let req := required_version d in
      if String.eqb req "" || String.eqb (Py.lower req) "latest" || String.eqb req "*"
      then compat_loop target_source target_pref new_version r
      else if negb (String.eqb req new_version)
      then blocker_msg target_source target_pref new_version d
           :: compat_loop target_source target_pref new_version r
      else compat_loop target_source target_pref new_version r
  end.

(** [_check_update_compat] *)
Definition _check_update_compat (env target_source target_pref new_version : string)
    : M (list string) :=
  ds <- _find_dependents env target_source target_pref;;
  ret (compat_loop target_source target_pref new_version ds).

(** The content of an [install-package] / [uninstall-package] step. *)
Definition parse_items (what : string) (content : json)
    : Exn + list (option string * string * option string) :=
  match content with
  | JStr _ | JObj _ =>
      match parse_dep content with inl e => inl e | inr it => inr [it] end
  | JList l =>
      fold_right (fun it acc =>
        match parse_dep it, acc with
        | inl e, _ => inl e
        | inr x, inl e => inl e
        | inr x, inr xs => inr (x :: xs)
        end) (inr []) l
  | _ => inl (YPMSError (what ++ " guide: invalid content"))
  end.

(** The recursive manager operations a guide step calls back into. *)
Definition InstF := string -> string -> option string -> option string -> bool -> bool -> M string.
Definition RunF := string -> string -> string -> option string -> option string -> bool -> bool -> M string.

(** The loop of [_exec_step_install_package]. *)
Fixpoint install_items (inst : InstF) (env : string) (ctx : Ctx) (env_pkgs : Dict.t Rec)
    (items : list (option string * string * option string)) : M unit :=
  match items with
  | [] => ret tt
  | (src_name, pref, ver) :: r =>
      let key := _db_key (Some (or_s src_name (or_s (Some (c_source_name ctx)) "yopr"))) pref in
      if Dict.mem env_pkgs key then install_items inst env ctx env_pkgs r
      else inst pref env ver (Py.or_else src_name (Some (c_source_name ctx))) false false;;;
           install_items inst env ctx env_pkgs r
  end.

(** [_exec_step_install_package] *)
Definition _exec_step_install_package (inst : InstF) (env : string) (ctx : Ctx)
    (content : json) : M string :=
  items <- lift (parse_items "install-package" content);;
  s <- get_st;;
  install_items inst env ctx (env_records (st_ledger s) env) items;;;
  ret "".

(** The loop of [_exec_step_uninstall_package]. *)
Fixpoint uninstall_items (runf : RunF) (env : string) (ctx : Ctx) (env_pkgs : Dict.t Rec)
    (items : list (option string * string * option string)) : M unit :=
  match items with
  | [] => ret tt
  | (src_name, pref, _ver) :: r =>
      let key := _db_key (Some (or_s src_name (or_s (Some (c_source_name ctx)) "yopr"))) pref in
      if negb (Dict.mem env_pkgs key) then uninstall_items runf env ctx env_pkgs r
      else
        let tsrc := or_s src_name (or_s (Some (c_source_name ctx)) "yopr") in
        dependents <- _find_dependents env tsrc pref;;
        s <- get_st;;
        match dependents with
        | _ :: _ =>
            if negb (st_force s)
            then raise (YPMSError ("uninstall blocked: other packages depend on "
                                   ++ tsrc ++ "/" ++ pref))
            else ret tt
        | [] => ret tt
        end;;;
        try_ypms (runf pref "uninstall" env None
                       (Py.or_else src_name (Some (c_source_name ctx))) false false);;;
        uninstall_items runf env ctx env_pkgs r
  end.

(** [_exec_step_uninstall_package] *)
Definition _exec_step_uninstall_package (runf : RunF) (env : string) (ctx : Ctx)
    (content : json) : M string :=
  items <- lift (parse_items "uninstall-package" content);;
  s <- get_st;;
  uninstall_items runf env ctx (env_records (st_ledger s) env) items;;;
  ret "".

Definition py_s := py_str py_str_container.

(** The entries of an [add-repo] step. *)
Definition add_repo_entries (cont : json) : Exn + list (string * string) :=
  match cont with
  | JObj f =>
      if Dict.mem f "name" && Dict.mem f "url"
      then inr [(py_s (json_get f "name"), py_s (json_get f "url"))]
      else inr (map (fun kv => (fst kv, py_s (snd kv))) f)
  | JList l =>
      inr (flat_map (fun e =>
             match e with
             | JObj f => if Dict.mem f "name" && Dict.mem f "url"
                         then [(py_s (json_get f "name"), py_s (json_get f "url"))] else []
             | _ => []
             end) l)
  | JStr s =>
      match Py.split_ws (Py.strip s) with
      | p0 :: p1 :: _ => inr [(p0, p1)]
      | _ => inr []
      end
  | _ => inl (YPMSError "add-repo guide: invalid content")
  end.

Fixpoint add_repo_loop (entries : list (string * string)) : M unit :=
  match entries with
  | [] => ret tt
  | (name, url) :: r =>
      s <- get_st;;
      (if Dict.mem (st_sources s) name then ret tt else add_source name url);;;
      add_repo_loop r
  end.

(** [_exec_step_add_repo] *)
Definition _exec_step_add_repo (cont : json) : M string :=
  entries <- lift (add_repo_entries cont);;
  add_repo_loop entries;;;
  ret "".

(** The names of a [remove-repo] step. *)
Definition remove_repo_names (cont : json) : Exn + list string :=
  match cont with
  | JStr s => inr [Py.strip s]
  | JList l => inr (map py_s l)
  | JObj f =>
      if Dict.mem f "name" then inr [py_s (json_get f "name")]
      else match Dict.get f "names" with
           | Some (JList l) => inr (map py_s l)
           | _ => inr []
           end
  | _ => inl (YPMSError "remove-repo guide: invalid content")
  end.

Fixpoint remove_repo_loop (names : list string) : M unit :=
  match names with
  | [] => ret tt
  | name :: r =>
      s <- get_st;;
      (if Dict.mem (st_sources s) name then remove_source name else ret tt);;;
      remove_repo_loop r
  end.

(** [_exec_step_remove_repo] *)
Definition _exec_step_remove_repo (cont : json) : M string :=
  names <- lift (remove_repo_names cont);;
  remove_repo_loop names;;;
  ret "".

(** Step types handled by [ext_step]. *)
Definition ext_types : list string :=
  ["license-agreement-url"; "python"; "shell"; "download-file"; "download-only"; "remove-file"].

Definition run_ext (gtype : string) (content : json) (env_dir : string) (ctx : Ctx) : M string :=
  fun s => let '(r, files) := ext_step gtype content env_dir ctx (st_files s) in
           (r, {| st_sources := st_sources s; st_sources_json := st_sources_json s;
                  st_ledger := st_ledger s; st_files := files;
                  st_envdirs := st_envdirs s; st_force := st_force s |}).

Definition is_type (t : option string) (name : string) : bool :=
  match t with Some x => String.eqb x name | None => false end.

(** The dispatch on [gtype] in [_execute_guide_steps] for a matched step
    (the manager and the env are always given by the manager's calls). *)
Definition exec_step (inst : InstF) (runf : RunF) (env_dir env : string) (ctx : Ctx)
    (force : bool) (step : Step) (last_result : string) : M string :=
  let gtype := s_type step in
  match gtype with
  | Some t =>
      if existsb (String.eqb t) ext_types then run_ext t (s_content step) env_dir ctx
      else if String.eqb t "install-package" then
        _exec_step_install_package inst env ctx (s_content step)
      else if String.eqb t "uninstall-package" then
        set_force force;;;
        _exec_step_uninstall_package runf env ctx (s_content step)
      else if String.eqb t "add-repo" then _exec_step_add_repo (s_content step)
      else if String.eqb t "remove-repo" then _exec_step_remove_repo (s_content step)
      else if String.eqb t "none" then ret last_result
      else raise (YPMSError ("Unsupported guide type: " ++ t))
  | None => raise (YPMSError "Unsupported guide type: None")
  end.

(** The loop of [_execute_guide_steps]: returns [(ran_any, last_result)]. *)
Fixpoint steps_loop (inst : InstF) (runf : RunF) (env_dir env : string) (ctx : Ctx)
    (force : bool) (steps : list Step) (ran_any : bool) (last_result : string)
    : M (bool * string) :=
  match steps with
  | [] => ret (ran_any, last_result)
  | step :: r =>
      if negb (_when_matches host (s_when step))
      then steps_loop inst runf env_dir env ctx force r ran_any last_result
      else res <- exec_step inst runf env_dir env ctx force step last_result;;
           steps_loop inst runf env_dir env ctx force r true res
  end.

(** [_normalize_guide_to_steps] *)
Definition _normalize_guide_to_steps (g : GuideObj) : list Step :=
  match g with GSingle s => [s] | GSteps l => l end.

(** [_execute_guide_steps] *)
Definition _execute_guide_steps (inst : InstF) (runf : RunF) (guide_obj : GuideObj)
    (env_dir : string) (pkg_ctx : Ctx) (env : string) (force : bool) : M string :=
  '(ran_any, last_result) <-
     steps_loop inst runf env_dir env pkg_ctx force (_normalize_guide_to_steps guide_obj) false "";;
  if ran_any then ret last_result
  else raise (YPMSError "No guide step matched current platform/arch").

(** The post-install dependency walk of [_install_execute]. *)
Fixpoint autoinstall_deps (inst : InstF) (env source_name : string) (deps : list json) : M unit :=
  match deps with
  | [] => ret tt
  | dep :: r =>
      '(dep_src, dep_ref, dep_ver) <- lift (parse_dep dep);;
      b <- is_installed env (or_s dep_src source_name) dep_ref;;
      (if b then ret tt
       else inst dep_ref env dep_ver (Some (or_s dep_src source_name)) false false;;; ret tt);;;
      autoinstall_deps inst env source_name r
  end.

(** [_install_execute] and [run].  They call each other through guide
    steps; [fuel] bounds the depth of that recursion, and running out of
    it is Python's [RecursionError]. *)
Fixpoint _install_execute (fuel : nat) (package_ref env : string)
    (version source_name : option string) (explicit force : bool) : M string :=
  match fuel with
  | O => raise (OtherError "RecursionError")
  | S fuel' =>
      '(user, pkg) <- lift (_split_pkg_ref package_ref);;
      src <- _get_source source_name;;
      env_dir <- ensure_env_dir envs_dir env;;
      pkg_info <- lift (fetch_package_info src user pkg);;
      let resolved := resolve_release_tag pkg_info version in
      rel <- lift (fetch_release_info pkg_info resolved);;
      let pkg_ctx := mkCtx (user ++ "/" ++ pkg) (src_name src) resolved in
      set_force force;;;
      match Dict.get (rel_guides rel) "install" with
      | None => raise (YPMSError "Guide 'install' not defined for this package")
      | Some guide =>
          _execute_guide_steps (_install_execute fuel') (run fuel') guide env_dir pkg_ctx env force;;;
          _db_mark_installed now env (src_name src) (user ++ "/" ++ pkg) resolved explicit;;;
          autoinstall_deps (_install_execute fuel') env (src_name src) (rel_depends rel);;;
          set_force false;;;
          ret env_dir
      end
  end
with run (fuel : nat) (package_ref guide_name env : string)
    (version source_name : option string) (force assume_yes : bool) : M string :=
  match fuel with
  | O => raise (OtherError "RecursionError")
  | S fuel' =>
      '(user, pkg) <- lift (_split_pkg_ref package_ref);;
      env_dir <- ensure_env_dir envs_dir env;;
      let is_uninstall := String.eqb guide_name "uninstall" in
      let continue_with (source_name : option string) : M string :=
        src <- _get_source source_name;;
        pkg_info <- lift (fetch_package_info src user pkg);;
        let resolved := resolve_release_tag pkg_info version in
        rel <- lift (fetch_release_info pkg_info resolved);;
        let pkg_ctx := mkCtx (user ++ "/" ++ pkg) (src_name src) resolved in
        match Dict.get (rel_guides rel) guide_name with
        | None => raise (YPMSError ("Guide '" ++ guide_name ++ "' not defined for release '"
                                    ++ show_opt resolved ++ "'."))
        | Some guide =>
            proceed <-
              (if is_uninstall then
                 dependents <- _find_dependents env (src_name src) (user ++ "/" ++ pkg);;
                 match dependents with
                 | [] => ret true
                 | _ :: _ =>
                     if negb force then raise (YPMSError "uninstall blocked by dependents")
                     else if assume_yes then ret true
                     else ret stdin_yes
                 end
               else ret true);;
            if negb proceed then ret env_dir
            else
              dest <- _execute_guide_steps (_install_execute fuel') (run fuel') guide env_dir
                                           pkg_ctx env false;;
              (if is_uninstall then _db_mark_uninstalled env (src_name src) (user ++ "/" ++ pkg)
               else ret tt);;;
              ret dest
        end in
      if is_uninstall then
        s <- get_st;;
        match find (fun meta => String.eqb (r_package meta) (user ++ "/" ++ pkg))
                   (Dict.values (env_records (st_ledger s) env)) with
        | None => ret ""
        | Some meta =>
            continue_with (if Py.truthy source_name then source_name else Some (r_source meta))
        end
      else continue_with source_name
  end.

End Manager.

(* ================================================================== *)
(** ** [_subst], planning, [install], [autoremove], [upgrade] *)

(** [_subst]: the placeholders of a step's text, replaced one after the
    other ([pkg_ctx] always holds the three keys; [str(None)] is
    ["None"]). *)
Definition _subst (h : Host) (s env_dir : string) (ctx : Ctx) : string :=
  let r := Py.replace s "{YPMS_ENV_DIR}" env_dir in
  let r := Py.replace r "{OS}" (_norm_os (sys_platform h)) in
  let r := Py.replace r "{ARCH}" (_norm_arch (machine h)) in
  let r := Py.replace r "{PACKAGE_REF}" (c_package_ref ctx) in
  let r := Py.replace r "{SOURCE_NAME}" (c_source_name ctx) in
  Py.replace r "{RELEASE_ID}" (show_opt (c_release_id ctx)).

(** An entry of the operation plan ([YPMSManager._OpItem]). *)
Record OpItem := mkOp {
  op_kind : string;               (* 'install', 'update' or 'target' *)
  op_source : string;
  op_package_ref : string;
  op_version : option string;
  op_footnote : option nat
}.

(** [a == b] on optional strings. *)
Definition opt_eqb (a b : option string) : bool :=
  match a, b with
  | Some x, Some y => String.eqb x y
  | None, None => true
  | _, _ => false
  end.

(** [except Exception: pass] *)
Definition try_any {A} (m : M A) : M unit :=
  fun s => match m s with (_, s') => (inr tt, s') end.

(** [list_installed(env)] on the loaded [envs] mapping. *)
Definition list_installed (l : Dict.t (Dict.t Rec)) (env : option string) : Dict.t (Dict.t Rec) :=
  if Py.truthy env then [(or_s env "", env_records l (or_s env ""))] else l.

(** The message of the supplementary note for a footnote. *)
Definition provider_note (provider : string) : string :=
  "This package repository will be installed by the following package: " ++ provider.

Section Planning.

Variable py_str_container : json -> string.
Variable host : Host.
Variable ext_step : string -> json -> string -> Ctx -> Files -> (Exn + string) * Files.
Variable fetch_package_info : Source -> string -> string -> Exn + PkgInfo.
Variable fetch_release_info : PkgInfo -> option string -> Exn + Release.
Variable envs_dir : string.
Variable now : string.
Variable stdin_yes : bool.

(** [src.fetch_index()] on a source returned by [_get_source] (with the
    config fetch of the [YPMSSource] construction); its value is never
    used, only its failure matters. *)
Variable fetch_index : Source -> Exn + unit.

(** Whether the answer read at the [Continue? [Y/n]] prompt is [""],
    [y] or [yes]. *)
Variable stdin_continue : bool.

Let py_s := py_str py_str_container.
Let parse_dep := _parse_dep py_str_container.

(** The names an [add-repo] step's content declares, as
    [_extract_add_repo_names] reads them. *)
Definition add_repo_step_names (cont : json) : list string :=
  match cont with
  | JObj f => if Dict.mem f "name" then [py_s (json_get f "name")] else []
  | JList l =>
      flat_map (fun c => match c with
                         | JObj f => if Dict.mem f "name" then [py_s (json_get f "name")] else []
                         | _ => []
                         end) l
  | JStr s => match Py.split_ws (Py.strip s) with p :: _ => [p] | [] => [] end
  | _ => []
  end.

(** [_extract_add_repo_names] on [guides.get("install")]; a missing
    guide ([None]) makes [_normalize_guide_to_steps] raise, which is
    caught. *)
Definition _extract_add_repo_names (guide_obj : option GuideObj) : list string :=
  match guide_obj with
  | None => []
  | Some g =>
      flat_map (fun st => if is_type (s_type st) "add-repo" then add_repo_step_names (s_content st)
                          else [])
               (_normalize_guide_to_steps g)
  end.

(** [[self._parse_dep(d) for d in depends]] *)
Definition parse_deps (deps : list json) : Exn + list (option string * string * option string) :=
  fold_right (fun d acc =>
    match parse_dep d, acc with
    | inl e, _ => inl e
    | inr _, inl e => inl e
    | inr x, inr xs => inr (x :: xs)
    end) (inr []) deps.

(** The first loop of [_build_operation_plan]: each dependency's release
    is fetched and the repositories its install guide adds are recorded
    in [providers]. *)
Fixpoint plan_deps (src_name : string) (entries : list (option string * string * option string))
    (providers : Dict.t string) : M (Dict.t string * list (string * string * option string)) :=
  match entries with
  | [] => ret (providers, [])
  | (dep_src, dep_ref, dep_ver) :: r =>
      '(dep_user, dep_pkg) <- lift (_split_pkg_ref dep_ref);;
      let dep_src_name := or_s dep_src src_name in
      dep_src_obj <- _get_source (Some dep_src_name);;
      dep_pkg_info <- lift (fetch_package_info dep_src_obj dep_user dep_pkg);;
      let dep_resolved := resolve_release_tag dep_pkg_info dep_ver in
      dep_rel_info <- lift (fetch_release_info dep_pkg_info dep_resolved);;
      let add_names := _extract_add_repo_names (Dict.get (rel_guides dep_rel_info) "install") in
      let providers :=
        fold_left (fun p nm => Dict.set p nm (dep_src_name ++ "/" ++ dep_ref ++ "@"
                                              ++ show_opt dep_resolved))
                  add_names providers in
      '(providers, rest) <- plan_deps src_name r providers;;
      ret (providers, (dep_src_name, dep_ref, dep_resolved) :: rest)
  end.

(** The second loop of [_build_operation_plan]: one operation per
    dependency, with a footnote when its source is not configured yet
    but a dependency's install guide adds it. *)
Fixpoint plan_ops (env : string) (known : list string) (providers : Dict.t string)
    (infos : list (string * string * option string)) (notes : list (nat * string))
    : M (list OpItem * list (nat * string)) :=
  match infos with
  | [] => ret ([], notes)
  | (dep_src_name, dep_ref, dep_resolved) :: r =>
      inst <- is_installed env dep_src_name dep_ref;;
      let kind := if inst then "update" else "install" in
      let '(foot, notes) :=
        if negb (existsb (String.eqb dep_src_name) known) then
          match Dict.get providers dep_src_name with
          | Some prov =>
              let n := S (List.length notes) in (Some n, app notes [(n, provider_note prov)])
          | None => (None, notes)
          end
        else (None, notes) in
      '(ops, notes) <- plan_ops env known providers r notes;;
      ret (mkOp kind dep_src_name dep_ref dep_resolved foot :: ops, notes)
  end.

(** [_build_operation_plan] *)
Definition _build_operation_plan (package_ref env : string) (version source_name : option string)
    : M (list OpItem * list (nat * string)) :=
  '(user, pkg) <- lift (_split_pkg_ref package_ref);;
  src <- _get_source source_name;;
  lift (fetch_index src);;;
  pkg_info <- lift (fetch_package_info src user pkg);;
  let resolved := resolve_release_tag pkg_info version in
  rel <- lift (fetch_release_info pkg_info resolved);;
  s <- get_st;;
  let known := map fst (st_sources s) in
  dep_entries <- lift (parse_deps (rel_depends rel));;
  '(providers, infos) <- plan_deps (src_name src) dep_entries [];;
  '(ops, notes) <- plan_ops env known providers infos [];;
  s <- get_st;;
  let target_ref := user ++ "/" ++ pkg in
  match Dict.get (env_records (st_ledger s) env) (_db_key (Some (src_name src)) target_ref) with
  | Some installed =>
      if opt_eqb (r_version installed) resolved then ret (ops, notes)
      else ret (app ops [mkOp "update" (src_name src) target_ref resolved None], notes)
  | None => ret (app ops [mkOp "target" (src_name src) target_ref resolved None], notes)
  end.

Let inst_f := _install_execute py_str_container host ext_step fetch_package_info fetch_release_info
                envs_dir now stdin_yes.
Let run_f := run py_str_container host ext_step fetch_package_info fetch_release_info
               envs_dir now stdin_yes.

(** [try: ... except YPMSError as e: if "not defined" in str(e): pass
    else: raise] *)
Definition catch_not_defined {A} (m : M A) : M unit :=
  fun s => match m s with
           | (inl (YPMSError msg), s') =>
               if Py.contains_sub "not defined" msg then (inr tt, s') else (inl (YPMSError msg), s')
           | (inl e, s') => (inl e, s')
           | (inr _, s') => (inr tt, s')
           end.

(** The loop of [install] over the planned operations; a blocked update
    returns [env_dir] at once. *)
Fixpoint install_ops (fuel : nat) (env : string) (explicit assume_yes force : bool)
    (env_dir : string) (ops : list OpItem) : M string :=
  match ops with
  | [] => ret env_dir
  | it :: r =>
      if String.eqb (op_kind it) "install" || String.eqb (op_kind it) "target" then
        inst_f fuel (op_package_ref it) env (op_version it) (Some (op_source it))
               (String.eqb (op_kind it) "target" && explicit) false;;;
        install_ops fuel env explicit assume_yes force env_dir r
      else if String.eqb (op_kind it) "update" then
        incompat <- _check_update_compat py_str_container fetch_package_info fetch_release_info
                      env (op_source it) (op_package_ref it) (or_s (op_version it) "");;
        let go :=
          catch_not_defined (run_f fuel (op_package_ref it) "update" env (op_version it)
                                   (Some (op_source it)) false false);;;
          install_ops fuel env explicit assume_yes force env_dir r in
        match incompat with
        | [] => go
        | _ :: _ =>
            if negb force then ret env_dir
            else if negb assume_yes && negb stdin_yes then ret env_dir
            else go
        end
      else install_ops fuel env explicit assume_yes force env_dir r
  end.

(** [YPMSManager.install] *)
Definition install (fuel : nat) (package_ref env : string) (version source_name : option string)
    (explicit assume_yes force : bool) : M string :=
  try_any (src <- _get_source source_name;; lift (fetch_index src));;;
  '(ops, _notes) <- _build_operation_plan package_ref env version source_name;;
  match ops with
  | [] => ensure_env_dir envs_dir env
  | _ :: _ =>
      if negb assume_yes && negb stdin_continue then ret ""
      else env_dir <- ensure_env_dir envs_dir env;;
           install_ops fuel env explicit assume_yes force env_dir ops
  end.

(** One package of [upgrade] / [autoremove]: runs [guide_name] with
    [assume_yes=True] and returns the result line, if any. *)
Definition run_report (fuel : nat) (guide_name env_name : string) (force : bool) (meta : Rec)
    : M (list string) :=
  fun s =>
    match run_f fuel (r_package meta) guide_name env_name (r_version meta) (Some (r_source meta))
                force true s with
    | (inr res, s') => (inr [env_name ++ ":" ++ r_package meta ++ " -> " ++ res], s')
    | (inl (YPMSError msg), s') =>
        if Py.contains_sub "not defined" msg then (inr [], s')
        else (inr [env_name ++ ":" ++ r_package meta ++ " [ERROR] " ++ msg], s')
    | (inl e, s') => (inl e, s')
    end.

Fixpoint report_loop (fuel : nat) (guide_name env_name : string) (force : bool) (metas : list Rec)
    : M (list string) :=
  match metas with
  | [] => ret []
  | meta :: r =>
      line <- run_report fuel guide_name env_name force meta;;
      rest <- report_loop fuel guide_name env_name force r;;
      ret (app line rest)
  end.

(** The loops of [autoremove] over the environments (of the snapshot
    [list_installed] returned) and their non-explicit records. *)
Fixpoint autoremove_envs (fuel : nat) (force : bool) (envs : Dict.t (Dict.t Rec)) : M (list string) :=
  match envs with
  | [] => ret []
  | (env_name, pkgs) :: r =>
      let targets := filter (fun meta => negb (r_explicit meta)) (Dict.values pkgs) in
      here <- report_loop fuel "uninstall" env_name force targets;;
      rest <- autoremove_envs fuel force r;;
      ret (app here rest)
  end.

(** [YPMSManager.autoremove] *)
Definition autoremove (fuel : nat) (env : option string) (force : bool) : M (list string) :=
  s <- get_st;;
  autoremove_envs fuel force (list_installed (st_ledger s) env).

(** The loop of [refresh_sources] (the caches it clears are not part of
    the state). *)
Fixpoint refresh_loop (names : list string) : M unit :=
  match names with
  | [] => ret tt
  | name :: r =>
      src <- _get_source (Some name);;
      lift (fetch_index src);;;
      refresh_loop r
  end.

(** [YPMSManager.refresh_sources] *)
Definition refresh_sources : M unit :=
  s <- get_st;;
  refresh_loop (map fst (st_sources s)).

Fixpoint upgrade_envs (fuel : nat) (force : bool) (envs : Dict.t (Dict.t Rec)) : M (list string) :=
  match envs with
  | [] => ret []
  | (env_name, pkgs) :: r =>
      here <- report_loop fuel "update" env_name force (Dict.values pkgs);;
      rest <- upgrade_envs fuel force r;;
      ret (app here rest)
  end.

(** [YPMSManager.upgrade] *)
Definition upgrade (fuel : nat) (env : option string) (force : bool) : M (list string) :=
  refresh_sources;;;
  s <- get_st;;
  upgrade_envs fuel force (list_installed (st_ledger s) env).

End Planning.

(* ================================================================== *)
(** ** [ypms-launcher.py] *)

Module Launcher.

Definition base : string := "https://github.com/YPSH-DGC/YPMS/releases".

(** The download URL [update(tag)] fetches. *)
Definition update_url (tag : string) : string :=
  if String.eqb tag "latest" then base ++ "/latest/download/ypms.py"
  else base ++ "/download/" ++ tag ++ "/ypms.py".

(** How [update()] ends: normally, with one of the exceptions [main]
    catches ([URLError], [HTTPError], [OSError]), or with another
    exception.  A failed update leaves [ypms.py] as it was: the file is
    only written by the final [os.replace]. *)
Inductive UpdateOutcome := UpdOk | UpdFailed | UpdCrashed.

(** What [main] ends in: [os.execv] of ypms.py with these arguments, an
    exit status, a normal return, or an uncaught exception. *)
Inductive Outcome := Launch (argv : list string) | Exit (code : nat) | Return | Crash.

(** [main], given [sys.argv[1:]], whether [ypms.py] is a file, and how
    the update ends when it is attempted. *)
Definition main (args : list string) (main_exists : bool) (upd : UpdateOutcome) : Outcome :=
  let do_selfupdate := existsb (String.eqb "selfupdate") args in
  let first_run := negb main_exists in
  if first_run || do_selfupdate then
    match upd with
    | UpdOk => if do_selfupdate then Return else Launch args
    | UpdFailed =>
        if do_selfupdate then Exit 1
        else if negb main_exists then Exit 2
        else Launch args
    | UpdCrashed => Crash
    end
  else Launch args.

End Launcher.

(* ================================================================== *)
(** ** Reference readings used by the theorems *)

(** The tag-resolution algorithm as the spec words it (section 4.3):
    empty tag -> default -> [alias["latest"]] -> first of the list, then
    one alias lookup.  Compared with [resolve_release_tag] below. *)
Definition resolve_release_tag_spec (pkg_info : PkgInfo) (tag : option string) : option string :=
  let tag := if Py.truthy tag then tag else pi_default pkg_info in
  let tag := if Py.truthy tag then tag else Dict.get (pi_alias pkg_info) "latest" in
  let tag := if Py.truthy tag then tag
             else match pi_list pkg_info with x :: _ => Some x | [] => tag end in
  match tag with
  | Some t => Some (match Dict.get (pi_alias pkg_info) t with Some v => v | None => t end)
  | None => None
  end.

(** A run callback with its domain errors turned into a normal return
    (keeping the state it reached). *)
Definition suppress_ypms (runf : RunF) : RunF :=
  fun pref gname env ver src force ay s =>
    match runf pref gname env ver src force ay s with
    | (inl (YPMSError _), s') => (inr "", s')
    | r => r
    end.

(** A concrete setting used by the witnesses and counterexamples: one
    source [yopr]; package [a/app] whose install guide first installs
    [a/lib] through an [install-package] step and then runs a failing
    [shell] step; [a/lib] installs with a [none] step and uninstalls with
    a failing [shell] step. *)
Module Demo.

Definition py_str_container (_ : json) : string := "".

Definition host : Host := mkHost "linux" "x86_64".

Definition ext_step (gtype : string) (_ : json) (_ : string) (_ : Ctx) (files : Files)
    : (Exn + string) * Files :=
  if String.eqb gtype "shell" then (inl (YPMSError "command failed"), files)
  else (inr "", files).

Definition fetch_package_info (_ : Source) (user pkg : string) : Exn + PkgInfo :=
  inr (mkPkgInfo (Some "v1") [] ["v1"] (user ++ "/" ++ pkg)).

Definition step (t : string) (c : json) : Step := mkStep (Some t) c None.

Definition app_release : Release :=
  mkRelease [] [("install", GSteps [step "install-package" (JStr "a/lib");
                                    step "shell" (JStr "false")])].

Definition lib_release : Release :=
  mkRelease [] [("install", GSingle (step "none" JNull));
                ("uninstall", GSingle (step "shell" (JStr "false")))].

Definition fetch_release_info (pi : PkgInfo) (_ : option string) : Exn + Release :=
  if String.eqb (pi_release_url pi) "a/app" then inr app_release else inr lib_release.

Definition lib_record : Rec := mkRec "yopr" "a/lib" (Some "v1") false "now".

Definition st0 : St := mkSt [("yopr", "https://example.org/ypms.json")]
                            [("yopr", "https://example.org/ypms.json")] [] [] [] false.

(** [st0] with [a/lib] installed in env [default]. *)
Definition st_lib : St := mkSt (st_sources st0) (st_sources_json st0)
                               [("default", [("yopr:a/lib", lib_record)])] [] [] false.

Definition ctx : Ctx := mkCtx "a/app" "yopr" (Some "v1").

(** Every index fetch succeeds. *)
Definition fetch_index (_ : Source) : Exn + unit := inr tt.

(** A package [a/tool] depending on [a/lib@v1], with a [none] install
    guide, served next to [a/app] and [a/lib]. *)
Definition tool_release : Release :=
  mkRelease [JStr "a/lib@v1"] [("install", GSingle (step "none" JNull))].

Definition fetch_release_info_tool (pi : PkgInfo) (v : option string) : Exn + Release :=
  if String.eqb (pi_release_url pi) "a/tool" then inr tool_release else fetch_release_info pi v.

Definition tool_record : Rec := mkRec "yopr" "a/tool" (Some "v1") true "now".

(** [st_lib] with [a/tool] installed explicitly next to [a/lib]. *)
Definition st_tool : St := mkSt (st_sources st0) (st_sources_json st0)
                                [("default", [("yopr:a/lib", lib_record); ("yopr:a/tool", tool_record)])]
                                [] [] false.

End Demo.

(* ================================================================== *)
(** Computations that leave the state as they found it. *)
Definition pure_st {A} (m : M A) : Prop := forall s r s', m s = (r, s') -> s' = s.

(** Computations that leave the ledger as they found it. *)
Definition keeps_ledger {A} (m : M A) : Prop :=
  forall s r s', m s = (r, s') -> st_ledger s' = st_ledger s.

(** Strings with no whitespace character. *)
Definition no_space (s : string) : bool :=
  forallb (fun c => negb (Py.is_space c)) (list_ascii_of_string s).

(** An operation's kind agrees with the ledger of [env]: an [update] is
    for a recorded package, an [install] or the [target] for one that is
    not recorded. *)
Definition planned_kind_ok (l : Dict.t (Dict.t Rec)) (env : string) (op : OpItem) : Prop :=
  let recorded := Dict.mem (env_records l env) (_db_key (Some (op_source op)) (op_package_ref op)) in
  (op_kind op = "update" /\ recorded = true) \/
  (op_kind op = "install" /\ recorded = false) \/
  (op_kind op = "target" /\ recorded = false).

(** A result line of [upgrade] / [autoremove] for the record [meta] of
    [env_name]. *)
Definition report_line_for (env_name : string) (meta : Rec) (line : string) : Prop :=
  (exists res, line = env_name ++ ":" ++ r_package meta ++ " -> " ++ res) \/
  (exists msg, line = env_name ++ ":" ++ r_package meta ++ " [ERROR] " ++ msg).

(** * Properties *)

(** ** Helper lemmas *)

(** Case analysis on the scrutinee of the first [match] in the goal. *)
Ltac destruct_goal_match :=
  match goal with |- context [match ?x with _ => _ end] => destruct x eqn:? end.

Lemma split_once_spec (c : ascii) (s a b : string) :
  Py.split_once c s = Some (a, b) <-> s = a ++ String c b /\ Py.contains c a = false.
Proof.
  revert a b; induction s as [|d r IH]; intros a b; simpl.
  - split; [discriminate|]. intros [H _]. destruct a; discriminate.
  - destruct (Ascii.eqb c d) eqn:Ecd.
    + apply Ascii.eqb_eq in Ecd; subst d. split.
      * intros H; inversion H; subst; simpl; auto.
      * intros [H1 H2]. destruct a as [|x a']; simpl in *.
        -- inversion H1; subst; reflexivity.
        -- inversion H1; subst. rewrite Ascii.eqb_refl in H2. discriminate.
    + case_eq (Py.split_once c r); [intros [a0 b0] Er | intros Er].
      * split.
        -- intros H; inversion H; subst. apply IH in Er as [-> H2].
           simpl. rewrite Ecd, H2. auto.
        -- intros [H1 H2]. destruct a as [|x a']; simpl in *.
           ++ inversion H1; subst. rewrite Ascii.eqb_refl in Ecd. discriminate.
           ++ inversion H1; subst. apply orb_false_iff in H2 as [_ H2].
              assert (Py.split_once c (a' ++ String c b) = Some (a', b)) as E
                by (apply IH; auto).
              rewrite Er in E. inversion E; subst. reflexivity.
      * split; [discriminate|].
        intros [H1 H2]. destruct a as [|x a']; simpl in *.
        -- inversion H1; subst. rewrite Ascii.eqb_refl in Ecd. discriminate.
        -- inversion H1; subst. apply orb_false_iff in H2 as [_ H2].
           assert (Py.split_once c (a' ++ String c b) = Some (a', b)) as E
             by (apply IH; auto).
           rewrite Er in E. discriminate.
Qed.

Lemma dict_pop_set_fresh {V} (d : Dict.t V) (k : string) (v : V) :
  Dict.mem d k = false -> Dict.pop (Dict.set d k v) k = d.
Proof.
  unfold Dict.mem. induction d as [|[k' v'] r IH]; simpl; intros H.
  - rewrite String.eqb_refl. reflexivity.
  - destruct (String.eqb k k') eqn:E; [discriminate|].
    simpl. rewrite E, IH; auto.
Qed.

Lemma alias_lookup_some (alias : Dict.t string) (o : option string) :
  match o with
  | Some t => match Dict.get alias t with Some v => Some v | None => Some t end
  | None => None
  end =
  match o with
  | Some t => Some (match Dict.get alias t with Some v => v | None => t end)
  | None => None
  end.
Proof. destruct o as [t|]; [destruct (Dict.get alias t)|]; reflexivity. Qed.

Lemma resolve_release_tag_result (pkg_info : PkgInfo) (tag : option string) (t : string) :
  resolve_release_tag pkg_info tag = Some t ->
  exists t0, Dict.get (pi_alias pkg_info) t0 = Some t \/
             (Dict.get (pi_alias pkg_info) t0 = None /\ t0 = t).
Proof.
  unfold resolve_release_tag.
  match goal with |- match ?x with _ => _ end = _ -> _ => destruct x as [t0|] end;
    intros Hr; [|discriminate].
  exists t0. destruct (Dict.get (pi_alias pkg_info) t0) eqn:E; inversion Hr; subst; auto.
Qed.

Lemma bind_ext {A B} (m : M A) (k k' : A -> M B) (s : St) :
  (forall a s', k a s' = k' a s') -> bind m k s = bind m k' s.
Proof. intros H. unfold bind. destruct (m s) as [[e|a] s']; auto. Qed.

Lemma compat_loop_filter (ts tp nv : string) (ds : list Dependent) :
  compat_loop ts tp nv ds =
  map (blocker_msg ts tp nv)
      (filter (fun d => let req := required_version d in
                        negb (String.eqb req "") && negb (String.eqb (Py.lower req) "latest")
                        && negb (String.eqb req "*") && negb (String.eqb req nv)) ds).
Proof.
  induction ds as [|d r IH]; simpl; auto.
  destruct (String.eqb (required_version d) "") eqn:E1; simpl;
  destruct (String.eqb (Py.lower (required_version d)) "latest") eqn:E2; simpl;
  destruct (String.eqb (required_version d) "*") eqn:E3; simpl;
  destruct (String.eqb (required_version d) nv) eqn:E4; simpl;
  rewrite IH; reflexivity.
Qed.

(** ** Release-tag resolution *)

(** C1: [resolve_release_tag] follows the spec's algorithm exactly: an
    empty tag falls back to the default, then to [alias["latest"]], then
    to the first listed release, and the result is looked up once in the
    alias mapping. *)
Theorem resolve_release_tag_follows_spec (pkg_info : PkgInfo) (tag : option string) :
  resolve_release_tag pkg_info tag = resolve_release_tag_spec pkg_info tag.
Proof.
  unfold resolve_release_tag, resolve_release_tag_spec. cbv zeta.
  rewrite alias_lookup_some.
  destruct (Py.truthy tag) eqn:Et; cbv iota.
  - rewrite !Et. reflexivity.
  - reflexivity.
Qed.

(** C5 (as stated, refuted): with chained aliases [a -> b] and [b -> c],
    resolving [a] gives [b], and resolving [b] again gives [c]. *)
Lemma resolve_not_idempotent_chained :
  let pi := mkPkgInfo None [("a", "b"); ("b", "c")] [] "r" in
  resolve_release_tag pi (Some "a") = Some "b" /\
  resolve_release_tag pi (resolve_release_tag pi (Some "a")) = Some "c".
Proof. split; reflexivity. Qed.

(** C5 (amended): when no alias target is itself an alias key mapped
    elsewhere, a second resolution of a non-empty result returns it
    unchanged. *)
Theorem resolve_idempotent_without_chains (pkg_info : PkgInfo) (tag : option string) (t : string)
  (Hnochain : forall k v, Dict.get (pi_alias pkg_info) k = Some v ->
                Dict.get (pi_alias pkg_info) v = None \/ Dict.get (pi_alias pkg_info) v = Some v)
  (Hres : resolve_release_tag pkg_info tag = Some t)
  (Hne : t <> "") :
  resolve_release_tag pkg_info (resolve_release_tag pkg_info tag) = resolve_release_tag pkg_info tag.
Proof.
  rewrite Hres.
  assert (Hget : Dict.get (pi_alias pkg_info) t = None \/ Dict.get (pi_alias pkg_info) t = Some t).
  { destruct (resolve_release_tag_result pkg_info tag t Hres) as [t0 [E | [E <-]]].
    - exact (Hnochain t0 t E).
    - left. exact E. }
  unfold resolve_release_tag at 1. simpl.
  destruct (String.eqb t "") eqn:Et; [apply String.eqb_eq in Et; contradiction|]. simpl.
  destruct Hget as [-> | ->]; reflexivity.
Qed.

Lemma resolve_idempotent_without_chains_witness :
  let pi := mkPkgInfo None [("latest", "v2"); ("stable", "v1")] ["v0"] "r" in
  (forall k v, Dict.get (pi_alias pi) k = Some v ->
     Dict.get (pi_alias pi) v = None \/ Dict.get (pi_alias pi) v = Some v) /\
  resolve_release_tag pi None = Some "v2" /\
  resolve_release_tag pi (resolve_release_tag pi None) = resolve_release_tag pi None.
Proof.
  intros pi. assert (Hn : forall k v, Dict.get (pi_alias pi) k = Some v ->
     Dict.get (pi_alias pi) v = None \/ Dict.get (pi_alias pi) v = Some v).
  { intros k v H. simpl in H.
    destruct (String.eqb k "latest"); [inversion H; subst; left; reflexivity|].
    destruct (String.eqb k "stable"); inversion H; subst; left; reflexivity. }
  split; [exact Hn|]. split; [reflexivity|].
  apply (resolve_idempotent_without_chains pi None "v2" Hn); [reflexivity | discriminate].
Defined.

(** ** Update compatibility *)

(** C2: [_check_update_compat] reports, in order, exactly the dependents
    whose resolved [required_version] is non-empty, is not [latest] in
    any letter case, is not [*], and differs from the planned version. *)
Theorem check_update_compat_blockers
  (py_str_container : json -> string) (fetch_package_info : Source -> string -> string -> Exn + PkgInfo)
  (fetch_release_info : PkgInfo -> option string -> Exn + Release)
  (env ts tp nv : string) (st : St) :
  _check_update_compat py_str_container fetch_package_info fetch_release_info env ts tp nv st =
  match _find_dependents py_str_container fetch_package_info fetch_release_info env ts tp st with
  | (inl e, st') => (inl e, st')
  | (inr ds, st') =>
      (inr (map (blocker_msg ts tp nv)
              (filter (fun d => let req := required_version d in
                         negb (String.eqb req "") && negb (String.eqb (Py.lower req) "latest")
                         && negb (String.eqb req "*") && negb (String.eqb req nv)) ds)), st')
  end.
Proof.
  unfold _check_update_compat, bind, ret.
  destruct (_find_dependents _ _ _ env ts tp st) as [[e|ds] st'].
  - reflexivity.
  - rewrite compat_loop_filter. reflexivity.
Qed.

(** ** Platform gating of steps *)

Lemma existsb_eqb_In (x : string) (l : list string) :
  existsb (String.eqb x) l = true <-> In x l.
Proof.
  rewrite existsb_exists. split.
  - intros [y [Hy E]]. apply String.eqb_eq in E. subst. exact Hy.
  - intros H. exists x. split; [exact H | apply String.eqb_refl].
Qed.

(** C6 (as stated, refuted): on a Linux x86_64 host, a step with
    [when = {os: [], arch: ["x86_64"]}] does not match; the empty [os]
    list is not treated as an absent constraint. *)
Lemma when_empty_os_list_never_matches :
  _when_matches (mkHost "linux" "x86_64") (Some (mkWhen (Some []) (Some ["x86_64"]))) = false.
Proof. reflexivity. Qed.

(** C6 (amended): an absent [when] matches; a [when] with keys matches
    iff every present list contains the host tag, the [os] entries
    lowercased and the [arch] entries lowercased and normalised (so an
    [os] key bound to [[]] matches no host); the outcome depends only on
    the lowercased entries. *)
Theorem when_matches_semantics (h : Host) :
  _when_matches h None = true /\
  (forall arch, _when_matches h (Some (mkWhen (Some []) arch)) = false) /\
  (forall w, _when_matches h (Some w) = true <->
     (forall l, w_os w = Some l -> In (_norm_os (sys_platform h)) (map Py.lower l)) /\
     (forall l, w_arch w = Some l ->
        In (_norm_arch (machine h)) (map (fun a => norm_arch_name (Py.lower a)) l))) /\
  (forall os1 os2 ar1 ar2,
     option_map (map Py.lower) os1 = option_map (map Py.lower) os2 ->
     option_map (map Py.lower) ar1 = option_map (map Py.lower) ar2 ->
     _when_matches h (Some (mkWhen os1 ar1)) = _when_matches h (Some (mkWhen os2 ar2))).
Proof.
  split; [reflexivity|]. split.
  { intros [l|]; reflexivity. }
  split.
  - intros [[lo|] [la|]]; simpl; rewrite ?andb_true_iff, ?existsb_eqb_In;
    (split;
      [ intros HH; split; intros l E; inversion E; subst; tauto
      | intros [Ho Ha]; repeat split;
        first [apply Ho; reflexivity | apply Ha; reflexivity | reflexivity] ]).
  - intros [o1|] [o2|] [a1|] [a2|] Ho Ha; simpl in Ho, Ha;
      try discriminate; simpl; try reflexivity;
      repeat match goal with H : Some _ = Some _ |- _ => injection H as H end;
      rewrite <- ?(map_map Py.lower norm_arch_name);
      rewrite ?Ho, ?Ha; reflexivity.
Qed.

(** ** Package references and dependency strings *)

(** C7 (as stated, refuted): a ref with whitespace around its halves is
    accepted, the halves being trimmed. *)
Lemma split_pkg_ref_accepts_padded :
  _split_pkg_ref " a / b " = inr ("a", "b").
Proof. reflexivity. Qed.

(** C7 (amended): [_split_pkg_ref] accepts exactly the refs that contain
    a [/] and whose two halves around the first [/] are non-empty after
    trimming, and returns the trimmed halves; every other ref raises a
    domain error. *)
Theorem split_pkg_ref_spec :
  (forall ref u p,
     _split_pkg_ref ref = inr (u, p) <->
     exists pre post, ref = pre ++ String "/" post /\ Py.contains "/" pre = false /\
                      u = Py.strip pre /\ p = Py.strip post /\ u <> "" /\ p <> "") /\
  (forall ref e, _split_pkg_ref ref = inl e -> exists m, e = YPMSError m).
Proof.
  split.
  - intros ref u p. unfold _split_pkg_ref. split.
    + destruct (Py.split_once "/" ref) as [[pre post]|] eqn:E; [|discriminate].
      apply split_once_spec in E as [E1 E2].
      destruct (String.eqb (Py.strip pre) "") eqn:Ea; simpl; [discriminate|].
      destruct (String.eqb (Py.strip post) "") eqn:Eb; simpl; [discriminate|].
      intros H; inversion H; subst.
      exists pre, post. repeat split; auto; intros Z;
        [rewrite Z in Ea | rewrite Z in Eb]; discriminate.
    + intros [pre [post [E1 [E2 [-> [-> [Hu Hp]]]]]]].
      assert (E : Py.split_once "/" ref = Some (pre, post)) by (apply split_once_spec; auto).
      rewrite E.
      apply String.eqb_neq in Hu, Hp. rewrite Hu, Hp. reflexivity.
  - intros ref e. unfold _split_pkg_ref.
    destruct (Py.split_once "/" ref) as [[pre post]|].
    + destruct (String.eqb (Py.strip pre) "" || String.eqb (Py.strip post) "");
        intros H; inversion H; eauto.
    + intros H; inversion H; eauto.
Qed.

(** C8: in a dependency string, the part before the first [:] is split
    off as the source (trimmed; blank means none) exactly when the part
    after that [:] contains a [/]; otherwise the whole trimmed string is
    parsed as a bare ref with no source.  In both cases the [@VERSION]
    suffix is split off the remaining body. *)
Theorem parse_dep_source_prefix (py_str_container : json -> string) (dep : string) :
  let body := Py.strip dep in
  (forall pre post,
     Py.split_once ":" body = Some (pre, post) -> Py.contains "/" post = true ->
     _parse_dep py_str_container (JStr dep) =
     inr (let s := Py.strip pre in if String.eqb s "" then None else Some s,
          fst (split_version post), snd (split_version post))) /\
  ((forall pre post, Py.split_once ":" body = Some (pre, post) -> Py.contains "/" post = false) ->
   _parse_dep py_str_container (JStr dep) =
   inr (None, fst (split_version body), snd (split_version body))).
Proof.
  intros body. unfold _parse_dep, _parse_dep_str. fold body. split.
  - intros pre post E Hc. rewrite E, Hc.
    destruct (split_version post); reflexivity.
  - intros H. destruct (Py.split_once ":" body) as [[pre post]|] eqn:E.
    + rewrite (H pre post eq_refl). destruct (split_version body); reflexivity.
    + destruct (split_version body); reflexivity.
Qed.

(** ** Sources map *)

(** C9 (as stated, refuted): re-adding an already configured source and
    then removing it drops the source instead of restoring it. *)
Lemma add_remove_existing_source_drops_it :
  let st := mkSt [("yopr", "u0")] [("yopr", "u0")] [] [] [] false in
  (add_source "yopr" "u1";;; remove_source "yopr") st =
  (inr tt, mkSt [] [] [] [] [] false).
Proof. reflexivity. Qed.

(** C9 (amended): for a name not yet configured, [add_source] followed by
    [remove_source] restores the sources map, in its order, and the saved
    [sources.json] content, from a state where the file matches the map. *)
Theorem add_remove_fresh_source_restores (st : St) (name url : string)
  (Hfresh : Dict.mem (st_sources st) name = false)
  (Hsaved : st_sources_json st = st_sources st) :
  (add_source name url;;; remove_source name) st = (inr tt, st).
Proof.
  destruct st as [srcs json led files dirs force]; simpl in *.
  unfold add_source, remove_source, bind, get_st, set_sources_and_save. simpl.
  assert (Hm : Dict.mem (Dict.set srcs name url) name = true).
  { unfold Dict.mem. clear Hfresh Hsaved. induction srcs as [|[k v] r IH]; simpl.
    - rewrite String.eqb_refl. reflexivity.
    - destruct (String.eqb name k) eqn:E; simpl; rewrite ?E; auto. }
  rewrite Hm, dict_pop_set_fresh by exact Hfresh. subst json. reflexivity.
Qed.

Lemma add_remove_fresh_source_restores_witness :
  let st := mkSt [("yopr", "u0")] [("yopr", "u0")] [] [] [] false in
  Dict.mem (st_sources st) "extra" = false /\ st_sources_json st = st_sources st /\
  (add_source "extra" "u1";;; remove_source "extra") st = (inr tt, st).
Proof.
  split; [reflexivity|]. split; [reflexivity|].
  apply add_remove_fresh_source_restores; reflexivity.
Defined.

(** ** Guide engine and manager *)

Section ManagerProps.

Variable py_str_container : json -> string.
Variable host : Host.
Variable ext_step : string -> json -> string -> Ctx -> Files -> (Exn + string) * Files.
Variable fetch_package_info : Source -> string -> string -> Exn + PkgInfo.
Variable fetch_release_info : PkgInfo -> option string -> Exn + Release.
Variable envs_dir now : string.
Variable stdin_yes : bool.

Lemma steps_loop_no_match (inst : InstF) (runf : RunF) (env_dir env : string) (ctx : Ctx)
    (force : bool) (steps : list Step) (ran_any : bool) (last_result : string) (st : St) :
  forallb (fun s => negb (_when_matches host (s_when s))) steps = true ->
  steps_loop py_str_container host ext_step fetch_package_info fetch_release_info
             inst runf env_dir env ctx force steps ran_any last_result st
  = (inr (ran_any, last_result), st).
Proof.
  induction steps as [|s r IH]; simpl; intros H; [reflexivity|].
  apply andb_true_iff in H as [Hs Hr]. rewrite Hs. apply IH, Hr.
Qed.

(** C4: when no step's [when] clause matches the host, executing the
    guide raises the platform-match error and returns the state it was
    given: no handler runs (the outcome is the same whatever the step
    handlers and manager callbacks are), and the ledger, the sources map,
    [sources.json] and the files are unchanged. *)
Theorem guide_without_matching_step_fails_cleanly (inst : InstF) (runf : RunF)
  (guide : GuideObj) (env_dir : string) (ctx : Ctx) (env : string) (force : bool) (st : St)
  (Hnone : forallb (fun s => negb (_when_matches host (s_when s)))
                   (_normalize_guide_to_steps guide) = true) :
  _execute_guide_steps py_str_container host ext_step fetch_package_info fetch_release_info
                       inst runf guide env_dir ctx env force st
  = (inl (YPMSError "No guide step matched current platform/arch"), st).
Proof.
  unfold _execute_guide_steps, bind.
  rewrite steps_loop_no_match by exact Hnone. reflexivity.
Qed.

Lemma try_ypms_suppress (runf : RunF) pref gname env ver src force ay (st : St) :
  try_ypms (runf pref gname env ver src force ay) st =
  try_ypms (suppress_ypms runf pref gname env ver src force ay) st.
Proof.
  unfold try_ypms, suppress_ypms.
  destruct (runf pref gname env ver src force ay st) as [[[m|m]|x] s']; reflexivity.
Qed.

Lemma uninstall_items_suppress (runf : RunF) (env : string) (ctx : Ctx) (env_pkgs : Dict.t Rec)
    items (st : St) :
  uninstall_items py_str_container fetch_package_info fetch_release_info runf env ctx env_pkgs items st =
  uninstall_items py_str_container fetch_package_info fetch_release_info (suppress_ypms runf)
                  env ctx env_pkgs items st.
Proof.
  revert st; induction items as [|[[src pref] ver] r IH]; intros st; simpl; [reflexivity|].
  destruct (negb _); [apply IH|].
  apply bind_ext; intros deps s1.
  apply bind_ext; intros s' s2.
  apply bind_ext; intros [] s3.
  unfold bind. rewrite try_ypms_suppress.
  destruct (try_ypms _ s3) as [[e|[]] s4]; [reflexivity|]. apply IH.
Qed.

(** C10: inside an [uninstall-package] step, a domain error raised by the
    uninstall of a target (after its dependents check) is swallowed: the
    step behaves exactly as if that uninstall had returned normally from
    the state it reached, going on with the remaining targets. *)
Theorem uninstall_package_step_suppresses_errors (runf : RunF) (env : string) (ctx : Ctx)
  (content : json) (st : St) :
  _exec_step_uninstall_package py_str_container fetch_package_info fetch_release_info
                               runf env ctx content st =
  _exec_step_uninstall_package py_str_container fetch_package_info fetch_release_info
                               (suppress_ypms runf) env ctx content st.
Proof.
  unfold _exec_step_uninstall_package, bind, lift, get_st.
  destruct (parse_items _ _ _) as [e|items]; [reflexivity|].
  rewrite uninstall_items_suppress. reflexivity.
Qed.

Lemma bind_inv {A B} (m : M A) (k : A -> M B) (s : St) r s' :
  bind m k s = (r, s') ->
  (exists e, m s = (inl e, s') /\ r = inl e) \/ (exists a s1, m s = (inr a, s1) /\ k a s1 = (r, s')).
Proof.
  unfold bind. destruct (m s) as [[e|a] s1]; intros H.
  - inversion H; subst. left. eauto.
  - right. eauto.
Qed.

Lemma pure_st_bind {A B} (m : M A) (k : A -> M B) :
  pure_st m -> (forall a, pure_st (k a)) -> pure_st (bind m k).
Proof.
  intros Hm Hk s r s' H. apply bind_inv in H as [[e [H1 _]] | [a [s1 [H1 H2]]]].
  - exact (Hm _ _ _ H1).
  - apply Hk in H2. apply Hm in H1. congruence.
Qed.

Lemma pure_st_ret {A} (a : A) : pure_st (ret a).
Proof. intros s r s' H. inversion H; reflexivity. Qed.

Lemma pure_st_raise {A} (e : Exn) : pure_st (A := A) (raise e).
Proof. intros s r s' H. inversion H; reflexivity. Qed.

Lemma pure_st_lift {A} (x : Exn + A) : pure_st (lift x).
Proof. intros s r s' H. inversion H; reflexivity. Qed.

Lemma pure_st_get : pure_st get_st.
Proof. intros s r s' H. inversion H; reflexivity. Qed.

Lemma pure_keeps_ledger {A} (m : M A) : pure_st m -> keeps_ledger m.
Proof. intros H s r s' E. apply H in E. subst. reflexivity. Qed.

Create HintDb purity.
#[local] Hint Resolve pure_st_bind pure_st_ret pure_st_raise pure_st_lift pure_st_get : purity.

Lemma get_source_pure (sn : option string) : pure_st (_get_source sn).
Proof.
  unfold _get_source. apply pure_st_bind; [auto with purity|]. intros st.
  apply pure_st_bind.
  - destruct (Py.truthy sn); [auto with purity|].
    destruct (Dict.mem _ _); [auto with purity|].
    destruct (map fst _); auto with purity.
  - intros name. destruct (Py.truthy _); auto with purity.
Qed.
#[local] Hint Resolve get_source_pure : purity.

Lemma deps_scan_pure ts tp dsn pref ver deps :
  pure_st (deps_scan py_str_container fetch_package_info ts tp dsn pref ver deps).
Proof.
  induction deps as [|d r IH]; simpl; [auto with purity|].
  apply pure_st_bind; [auto with purity|]. intros [[ds dr] dv].
  destruct (_ && _); [|exact IH].
  apply pure_st_bind.
  - destruct (Py.truthy dv); [|auto with purity].
    apply pure_st_bind; [auto with purity|]. intros [u p].
    apply pure_st_bind; [auto with purity|]. intros so.
    apply pure_st_bind; auto with purity.
  - intros req. apply pure_st_bind; auto with purity.
Qed.
#[local] Hint Resolve deps_scan_pure : purity.

Lemma records_scan_pure ts tp recs :
  pure_st (records_scan py_str_container fetch_package_info fetch_release_info ts tp recs).
Proof.
  induction recs as [|m r IH]; simpl; [auto with purity|].
  apply pure_st_bind; [auto with purity|]. intros [u p].
  repeat (apply pure_st_bind; [auto with purity|]; intros ?).
  auto with purity.
Qed.
#[local] Hint Resolve records_scan_pure : purity.

Lemma find_dependents_pure env ts tp :
  pure_st (_find_dependents py_str_container fetch_package_info fetch_release_info env ts tp).
Proof. unfold _find_dependents. apply pure_st_bind; auto with purity. Qed.

Lemma ensure_env_dir_keeps_ledger d e : keeps_ledger (ensure_env_dir d e).
Proof. intros s r s' H. inversion H; reflexivity. Qed.

Lemma set_force_keeps_ledger b : keeps_ledger (set_force b).
Proof. intros s r s' H. inversion H; reflexivity. Qed.

Lemma mark_installed_ok nw env sname ref ver expl s :
  exists s', _db_mark_installed nw env sname ref ver expl s = (inr tt, s').
Proof. eexists. unfold _db_mark_installed, bind, get_st, set_ledger. reflexivity. Qed.

Lemma lift_inv {A} (x : Exn + A) s r s' : lift x s = (r, s') -> s' = s /\ r = x.
Proof. intros H; inversion H; auto. Qed.

Lemma mark_uninstalled_ok env sname ref s :
  exists s', _db_mark_uninstalled env sname ref s = (inr tt, s').
Proof.
  unfold _db_mark_uninstalled, bind, get_st. cbv zeta.
  destruct (Dict.get _ env) as [e|]; [destruct (Dict.mem e _)|]; eexists; reflexivity.
Qed.

Local Abbreviation inst := (_install_execute py_str_container host ext_step fetch_package_info
                          fetch_release_info envs_dir now stdin_yes).
Local Abbreviation runf := (run py_str_container host ext_step fetch_package_info
                          fetch_release_info envs_dir now stdin_yes).
Local Abbreviation guide_exec := (_execute_guide_steps py_str_container host ext_step
                                fetch_package_info fetch_release_info).

Lemma install_execute_ledger_shape fuel pref env ver sn expl force st r st' :
  inst fuel pref env ver sn expl force st = (r, st') ->
  ((exists e, r = inl e) /\ st_ledger st' = st_ledger st) \/
  exists fuel' guide env_dir ctx s1 gr s2,
    fuel = S fuel' /\ st_ledger s1 = st_ledger st /\
    guide_exec (inst fuel') (runf fuel') guide env_dir ctx env force s1 = (gr, s2) /\
    match gr with
    | inl e => r = inl e /\ st' = s2
    | inr _ => exists sname ref resolved deps s3,
        _db_mark_installed now env sname ref resolved expl s2 = (inr tt, s3) /\
        (autoinstall_deps py_str_container (inst fuel') env sname deps;;;
         set_force false;;; ret env_dir) s3 = (r, st')
    end.
Proof.
  intros H.
  destruct fuel as [|fuel].
  { inversion H; subst. left. eauto. }
  cbn [_install_execute] in H.
  apply bind_inv in H as [[e [Hm ->]] | [[user pkg] [s1 [Hm H]]]].
  { apply lift_inv in Hm as [-> _]. left; eauto. }
  apply lift_inv in Hm as [-> _]. cbv beta iota in H.
  apply bind_inv in H as [[e [Hm ->]] | [src [s1 [Hm H]]]].
  { apply get_source_pure in Hm as ->. left; eauto. }
  apply get_source_pure in Hm as ->.
  apply bind_inv in H as [[e [Hm ->]] | [env_dir [s1 [Hm H]]]].
  { inversion Hm. }
  pose proof (ensure_env_dir_keeps_ledger _ _ _ _ _ Hm) as Hl; clear Hm.
  apply bind_inv in H as [[e [Hm ->]] | [pi [s2 [Hm H]]]].
  { apply lift_inv in Hm as [-> _]. left; eauto. }
  apply lift_inv in Hm as [-> _].
  apply bind_inv in H as [[e [Hm ->]] | [rel [s2 [Hm H]]]].
  { apply lift_inv in Hm as [-> _]. left; eauto. }
  apply lift_inv in Hm as [-> _].
  apply bind_inv in H as [[e [Hm ->]] | [[] [s2 [Hm H]]]].
  { inversion Hm. }
  pose proof (set_force_keeps_ledger _ _ _ _ Hm) as Hl2; clear Hm.
  destruct (Dict.get (rel_guides rel) "install") as [guide|].
  2:{ inversion H; subst. left. split; eauto. congruence. }
  apply bind_inv in H as [[e [Hm ->]] | [d [s3 [Hm H]]]].
  { right. do 7 eexists. split; [reflexivity|]. split; [|split; [exact Hm|]].
    - congruence.
    - simpl. auto. }
  right. do 7 eexists. split; [reflexivity|]. split; [|split; [exact Hm|]].
  - congruence.
  - simpl.
    apply bind_inv in H as [[e [Hk _]] | [[] [s4 [Hk H]]]].
    { destruct (mark_installed_ok now env (src_name src) (user ++ "/" ++ pkg) (resolve_release_tag pi ver) expl s3) as [s4 Hs4]. congruence. }
    do 5 eexists. split; [exact Hk|exact H].
Qed.

Lemma run_uninstall_ledger_shape fuel pref env ver sn force ay st r st' :
  runf fuel pref "uninstall" env ver sn force ay st = (r, st') ->
  st_ledger st' = st_ledger st \/
  exists fuel' guide env_dir ctx s1 gr s2,
    fuel = S fuel' /\ st_ledger s1 = st_ledger st /\
    guide_exec (inst fuel') (runf fuel') guide env_dir ctx env false s1 = (gr, s2) /\
    match gr with
    | inl e => r = inl e /\ st' = s2
    | inr d => r = inr d /\ exists sname ref, _db_mark_uninstalled env sname ref s2 = (inr tt, st')
    end.
Proof.
  intros H.
  destruct fuel as [|fuel].
  { inversion H; subst. left. reflexivity. }
  cbn [run] in H. cbv zeta in H.
  change (String.eqb "uninstall" "uninstall") with true in H. cbv iota in H.
  apply bind_inv in H as [[e [Hm ->]] | [[user pkg] [s1 [Hm H]]]].
  { apply lift_inv in Hm as [-> _]. left; reflexivity. }
  apply lift_inv in Hm as [-> _]. cbv beta iota in H.
  apply bind_inv in H as [[e [Hm ->]] | [env_dir [s1 [Hm H]]]].
  { inversion Hm. }
  pose proof (ensure_env_dir_keeps_ledger _ _ _ _ _ Hm) as Hl; clear Hm.
  apply bind_inv in H as [[e [Hm ->]] | [s0 [s2 [Hm H]]]].
  { inversion Hm. }
  inversion Hm; subst s0 s2; clear Hm.
  destruct (find _ _) as [meta|].
  2:{ inversion H; subst. left. exact Hl. }
  apply bind_inv in H as [[e [Hm ->]] | [src [s2 [Hm H]]]].
  { apply get_source_pure in Hm. left; congruence. }
  apply get_source_pure in Hm; subst s2.
  apply bind_inv in H as [[e [Hm ->]] | [pi [s2 [Hm H]]]].
  { apply lift_inv in Hm as [-> _]. left; exact Hl. }
  apply lift_inv in Hm as [-> _].
  apply bind_inv in H as [[e [Hm ->]] | [rel [s2 [Hm H]]]].
  { apply lift_inv in Hm as [-> _]. left; exact Hl. }
  apply lift_inv in Hm as [-> _].
  destruct (Dict.get (rel_guides rel) "uninstall") as [guide|].
  2:{ inversion H; subst. left. exact Hl. }
  apply bind_inv in H as [[e [Hm ->]] | [proceed [s2 [Hm H]]]].
  { apply bind_inv in Hm as [[e' [Hm _]] | [ds [s3 [Hm Hk]]]].
    - apply find_dependents_pure in Hm. left; congruence.
    - apply find_dependents_pure in Hm; subst s3.
      destruct ds; [inversion Hk|];
        destruct force, ay; inversion Hk; subst; left; exact Hl. }
  assert (s2 = s1) as ->.
  { apply bind_inv in Hm as [[e' [_ He]] | [ds [s3 [Hm Hk]]]].
    - discriminate He.
    - apply find_dependents_pure in Hm; subst s3.
      destruct ds; [inversion Hk; reflexivity|];
        destruct force, ay; inversion Hk; reflexivity. }
  clear Hm.
  destruct (negb proceed).
  { inversion H; subst. left. exact Hl. }
  apply bind_inv in H as [[e [Hm ->]] | [d [s3 [Hm H]]]].
  { right. do 7 eexists. split; [reflexivity|]. split; [exact Hl|]. split; [exact Hm|]. simpl. auto. }
  right. do 7 eexists. split; [reflexivity|]. split; [exact Hl|]. split; [exact Hm|].
  apply bind_inv in H as [[e [Hk _]] | [[] [s4 [Hk H]]]].
  { destruct (mark_uninstalled_ok env (src_name src) (user ++ "/" ++ pkg) s3) as [s4 Hs4]. congruence. }
  inversion H; subst. split; [reflexivity|]. eauto.
Qed.
(** C3: an install writes the package's own record only on the state the
    install guide returned successfully, and an uninstall (via [run])
    deletes it only on the state its uninstall guide returned successfully.
    When the guide fails, the operation's own record is not touched and the
    final state is exactly the guide's failure state: whatever nested
    [install-package] / [uninstall-package] steps wrote there stays. *)
Theorem ledger_updated_only_after_guide :
  (forall fuel pref env ver sn expl force st r st',
    inst fuel pref env ver sn expl force st = (r, st') ->
    ((exists e, r = inl e) /\ st_ledger st' = st_ledger st) \/
    exists fuel' guide env_dir ctx s1 gr s2,
      fuel = S fuel' /\ st_ledger s1 = st_ledger st /\
      guide_exec (inst fuel') (runf fuel') guide env_dir ctx env force s1 = (gr, s2) /\
      match gr with
      | inl e => r = inl e /\ st' = s2
      | inr _ => exists sname ref resolved deps s3,
          _db_mark_installed now env sname ref resolved expl s2 = (inr tt, s3) /\
          (autoinstall_deps py_str_container (inst fuel') env sname deps;;;
           set_force false;;; ret env_dir) s3 = (r, st')
      end) /\
  (forall fuel pref env ver sn force ay st r st',
    runf fuel pref "uninstall" env ver sn force ay st = (r, st') ->
    st_ledger st' = st_ledger st \/
    exists fuel' guide env_dir ctx s1 gr s2,
      fuel = S fuel' /\ st_ledger s1 = st_ledger st /\
      guide_exec (inst fuel') (runf fuel') guide env_dir ctx env false s1 = (gr, s2) /\
      match gr with
      | inl e => r = inl e /\ st' = s2
      | inr d => r = inr d /\ exists sname ref, _db_mark_uninstalled env sname ref s2 = (inr tt, st')
      end).
Proof.
  split.
  - intros until st'. apply install_execute_ledger_shape.
  - intros until st'. apply run_uninstall_ledger_shape.
Qed.

End ManagerProps.

Lemma guide_without_matching_step_fails_cleanly_witness :
  let g := GSteps [mkStep (Some "shell") (JStr "echo D") (Some (mkWhen (Some ["darwin"]) None))] in
  forallb (fun s => negb (_when_matches Demo.host (s_when s))) (_normalize_guide_to_steps g) = true /\
  _execute_guide_steps Demo.py_str_container Demo.host Demo.ext_step Demo.fetch_package_info
    Demo.fetch_release_info
    (_install_execute Demo.py_str_container Demo.host Demo.ext_step Demo.fetch_package_info
       Demo.fetch_release_info "/envs" "now" false 3)
    (run Demo.py_str_container Demo.host Demo.ext_step Demo.fetch_package_info
       Demo.fetch_release_info "/envs" "now" false 3)
    g "/envs/default" Demo.ctx "default" false Demo.st0
  = (inl (YPMSError "No guide step matched current platform/arch"), Demo.st0).
Proof.
  split; [reflexivity|].
  apply guide_without_matching_step_fails_cleanly. reflexivity.
Defined.

(** C3, as stated ("if the guide fails, the ledger is unchanged"), does not
    hold: [a/app]'s install guide first installs [a/lib] through an
    [install-package] step, then its [shell] step fails.  The install
    raises, yet the ledger, empty before, now holds [a/lib]'s record. *)
Lemma install_guide_failure_keeps_nested_record :
  fst (_install_execute Demo.py_str_container Demo.host Demo.ext_step Demo.fetch_package_info
         Demo.fetch_release_info "/envs" "now" false 10 "a/app" "default" None None true false
         Demo.st0) = inl (YPMSError "command failed") /\
  st_ledger Demo.st0 = [] /\
  st_ledger (snd (_install_execute Demo.py_str_container Demo.host Demo.ext_step
         Demo.fetch_package_info Demo.fetch_release_info "/envs" "now" false 10 "a/app"
         "default" None None true false Demo.st0))
    = [("default", [("yopr:a/lib", Demo.lib_record)])].
Proof. vm_compute. repeat split. Qed.

(* ================================================================== *)
(** * Further properties of the code *)

(** ** Dict lemmas *)

Lemma dict_get_set_same {V} (d : Dict.t V) k v : Dict.get (Dict.set d k v) k = Some v.
Proof.
  induction d as [|[k' v'] r IH]; simpl.
  - rewrite String.eqb_refl. reflexivity.
  - destruct (String.eqb k k') eqn:E; simpl; rewrite E; auto.
Qed.

Lemma dict_get_set_other {V} (d : Dict.t V) k k' v :
  k' <> k -> Dict.get (Dict.set d k v) k' = Dict.get d k'.
Proof.
  intros Hne. apply String.eqb_neq in Hne.
  induction d as [|[k0 v0] r IH]; simpl.
  - rewrite Hne. reflexivity.
  - destruct (String.eqb k k0) eqn:E; simpl.
    + apply String.eqb_eq in E; subst k0. rewrite Hne. reflexivity.
    + rewrite IH. reflexivity.
Qed.

Lemma dict_set_set {V} (d : Dict.t V) k v w : Dict.set (Dict.set d k v) k w = Dict.set d k w.
Proof.
  induction d as [|[k' v'] r IH]; simpl.
  - rewrite String.eqb_refl. reflexivity.
  - destruct (String.eqb k k') eqn:E; simpl; rewrite E; [reflexivity|rewrite IH; reflexivity].
Qed.

Lemma dict_set_get_same {V} (d : Dict.t V) k v : Dict.get d k = Some v -> Dict.set d k v = d.
Proof.
  induction d as [|[k' v'] r IH]; simpl; [discriminate|].
  destruct (String.eqb k k') eqn:E; intros H.
  - inversion H; subst. reflexivity.
  - rewrite IH; auto.
Qed.

Lemma dict_get_pop_other {V} (d : Dict.t V) k k' :
  k' <> k -> Dict.get (Dict.pop d k) k' = Dict.get d k'.
Proof.
  intros Hne. induction d as [|[k0 v0] r IH]; simpl; [reflexivity|].
  destruct (String.eqb k k0) eqn:E.
  - apply String.eqb_eq in E; subst k0. apply String.eqb_neq in Hne. rewrite Hne. reflexivity.
  - simpl. rewrite IH. reflexivity.
Qed.

Lemma dict_get_none_notin {V} (d : Dict.t V) k : ~ In k (map fst d) -> Dict.get d k = None.
Proof.
  induction d as [|[k0 v0] r IH]; simpl; [reflexivity|].
  intros H. destruct (String.eqb k k0) eqn:E.
  - apply String.eqb_eq in E; subst. exfalso; auto.
  - apply IH. auto.
Qed.

Lemma dict_get_pop_same {V} (d : Dict.t V) k :
  NoDup (map fst d) -> Dict.get (Dict.pop d k) k = None.
Proof.
  induction d as [|[k0 v0] r IH]; simpl; [reflexivity|].
  intros Hnd. inversion Hnd as [|? ? Hnin Hnd']; subst.
  destruct (String.eqb k k0) eqn:E.
  - apply String.eqb_eq in E; subst. apply dict_get_none_notin. exact Hnin.
  - simpl. rewrite E. apply IH. exact Hnd'.
Qed.

Lemma dict_get_mem {V} (d : Dict.t V) k : Dict.mem d k = true <-> exists v, Dict.get d k = Some v.
Proof.
  unfold Dict.mem. destruct (Dict.get d k); split; intros H; eauto.
  - discriminate.
  - destruct H; discriminate.
Qed.

Lemma env_records_set l env e : env_records (Dict.set l env e) env = e.
Proof. unfold env_records. rewrite dict_get_set_same. reflexivity. Qed.

Lemma env_records_set_other l env env' e :
  env' <> env -> env_records (Dict.set l env e) env' = env_records l env'.
Proof. intros H. unfold env_records. rewrite dict_get_set_other; auto. Qed.

(** ** The ledger: [_db_mark_installed], [_db_mark_uninstalled], [is_installed] *)

(** After [_db_mark_installed], the ledger holds exactly the new record
    under the package's key, and [is_installed] answers [True]. *)
Theorem db_mark_installed_lookup (now env source ref : string) (ver : option string)
    (expl : bool) (s : St) :
  let s' := snd (_db_mark_installed now env source ref ver expl s) in
  fst (_db_mark_installed now env source ref ver expl s) = inr tt /\
  Dict.get (env_records (st_ledger s') env) (_db_key (Some source) ref)
    = Some (mkRec source ref ver expl now) /\
  fst (is_installed env source ref s') = inr true.
Proof.
  cbv zeta. simpl. rewrite env_records_set, dict_get_set_same.
  unfold Dict.mem. rewrite dict_get_set_same. auto.
Qed.





(** Marking a package installed in an existing environment where it was
    not recorded, then uninstalled, gives back the state. *)
Theorem db_mark_installed_uninstalled_roundtrip (now env source ref : string)
    (ver : option string) (expl : bool) (s : St) (e : Dict.t Rec) :
  Dict.get (st_ledger s) env = Some e ->
  Dict.mem e (_db_key (Some source) ref) = false ->
  _db_mark_uninstalled env source ref (snd (_db_mark_installed now env source ref ver expl s))
    = (inr tt, s).
Proof.
  intros He Hm. unfold _db_mark_uninstalled, bind, get_st. simpl.
  rewrite dict_get_set_same. unfold Dict.mem at 1. rewrite dict_get_set_same.
  unfold env_records. rewrite He. simpl.
  rewrite dict_set_set, dict_pop_set_fresh by exact Hm.
  rewrite dict_set_get_same by exact He. destruct s; reflexivity.
Qed.

Lemma db_mark_installed_uninstalled_roundtrip_witness :
  Dict.get (st_ledger Demo.st_lib) "default" = Some [("yopr:a/lib", Demo.lib_record)] /\
  Dict.mem [("yopr:a/lib", Demo.lib_record)] (_db_key (Some "yopr") "a/app") = false /\
  _db_mark_uninstalled "default" "yopr" "a/app"
    (snd (_db_mark_installed "now" "default" "yopr" "a/app" None true Demo.st_lib))
    = (inr tt, Demo.st_lib).
Proof.
  split; [reflexivity|]. split; [reflexivity|].
  apply (db_mark_installed_uninstalled_roundtrip "now" "default" "yopr" "a/app" None true
           Demo.st_lib [("yopr:a/lib", Demo.lib_record)]); reflexivity.
Defined.

(** ** [_get_source]: which source a missing name selects *)

Lemma ascii_compare_refl (x : ascii) : Ascii.compare x x = Eq.
Proof. unfold Ascii.compare. apply N.compare_refl. Qed.

Lemma string_compare_refl (a : string) : String.compare a a = Eq.
Proof. induction a as [|x a IH]; simpl; [reflexivity|]. rewrite ascii_compare_refl. exact IH. Qed.

Lemma string_leb_refl (a : string) : String.leb a a = true.
Proof. unfold String.leb. rewrite string_compare_refl. reflexivity. Qed.

Lemma string_leb_trans (a b c : string) :
  String.leb a b = true -> String.leb b c = true -> String.leb a c = true.
Proof.
  unfold String.leb. revert b c.
  induction a as [|x a IH]; intros [|y b] [|z c]; simpl; auto; try discriminate.
  unfold Ascii.compare.
  destruct (N.compare_spec (N_of_ascii x) (N_of_ascii y)) as [Exy|Exy|Exy];
  destruct (N.compare_spec (N_of_ascii y) (N_of_ascii z)) as [Eyz|Eyz|Eyz];
  intros H1 H2; try discriminate.
  1: rewrite Exy, Eyz, N.compare_refl; apply (IH b c H1 H2).
  all: replace (N.compare (N_of_ascii x) (N_of_ascii z)) with Lt; [reflexivity|];
       symmetry; apply N.compare_lt_iff; lia.
Qed.

Lemma string_ltb_false_leb (a b : string) : String.ltb a b = false -> String.leb b a = true.
Proof.
  unfold String.ltb, String.leb. rewrite String.compare_antisym.
  destruct (String.compare b a); simpl; auto.
Qed.

Lemma string_ltb_leb (a b : string) : String.ltb a b = true -> String.leb a b = true.
Proof. unfold String.ltb, String.leb. destruct (String.compare a b); auto. Qed.

Lemma min_key_least (k : string) (ks : list string) :
  In (min_key k ks) (k :: ks) /\ forall x, In x (k :: ks) -> String.leb (min_key k ks) x = true.
Proof.
  revert k. induction ks as [|k' r IH]; intros k; simpl.
  - split; [auto|]. intros x [<-|[]]. apply string_leb_refl.
  - assert (Hmk : String.leb (if String.ltb k' k then k' else k) k = true /\
                  String.leb (if String.ltb k' k then k' else k) k' = true).
    { destruct (String.ltb k' k) eqn:E.
      - split; [apply string_ltb_leb; exact E | apply string_leb_refl].
      - split; [apply string_leb_refl | apply string_ltb_false_leb; exact E]. }
    destruct (IH (if String.ltb k' k then k' else k)) as [Hin Hle]. split.
    + destruct (String.ltb k' k); destruct Hin as [Hm|Hin]; rewrite <- ?Hm; simpl; auto.
    + intros x [<-|[<-|Hx]].
      * eapply string_leb_trans; [apply Hle; left; reflexivity | apply Hmk].
      * eapply string_leb_trans; [apply Hle; left; reflexivity | apply Hmk].
      * apply Hle. right. exact Hx.
Qed.



(** With no source name and no [yopr] source, [_get_source] acts as if
    given the least configured name in code-point order
    ([sorted(keys)[0]]). *)
Theorem get_source_default_least (sn : option string) (s : St) :
  Py.truthy sn = false ->
  Dict.mem (st_sources s) "yopr" = false -> st_sources s <> [] ->
  exists name,
    In name (map fst (st_sources s)) /\
    (forall k, In k (map fst (st_sources s)) -> String.leb name k = true) /\
    _get_source sn s = _get_source (Some name) s.
Proof.
  intros Hsn Hy Hne.
  destruct (st_sources s) as [|[k0 v0] rest] eqn:Es; [congruence|].
  destruct (min_key_least k0 (map fst rest)) as [Hin Hle].
  exists (min_key k0 (map fst rest)). simpl map. split; [exact Hin|]. split; [exact Hle|].
  unfold _get_source, bind, get_st. rewrite Hsn. cbv zeta. rewrite Es, Hy. simpl map.
  destruct (Py.truthy (Some (min_key k0 (map fst rest)))) eqn:Et.
  - unfold Py.truthy in Et. unfold ret, or_s.
    destruct (String.eqb (min_key k0 (map fst rest)) ""); [discriminate|reflexivity].
  - reflexivity.
Qed.

Lemma get_source_default_least_witness :
  let s := mkSt [("b", "https://b.example/ypms.json"); ("a", "https://a.example/ypms.json")]
                [] [] [] [] false in
  Py.truthy None = false /\ Dict.mem (st_sources s) "yopr" = false /\ st_sources s <> [] /\
  exists name,
    In name (map fst (st_sources s)) /\
    (forall k, In k (map fst (st_sources s)) -> String.leb name k = true) /\
    _get_source None s = _get_source (Some name) s.
Proof.
  cbv zeta. split; [reflexivity|]. split; [reflexivity|]. split; [discriminate|].
  apply get_source_default_least; [reflexivity|reflexivity|discriminate].
Defined.

(** With no source name and no source configured, [_get_source] fails
    with "No sources configured." and changes nothing. *)
Theorem get_source_no_sources (sn : option string) (s : St) :
  Py.truthy sn = false -> st_sources s = [] ->
  _get_source sn s = (inl (YPMSError "No sources configured."), s).
Proof.
  intros Hsn Hs. unfold _get_source, bind, get_st. rewrite Hsn, Hs. reflexivity.
Qed.

Lemma get_source_no_sources_witness :
  Py.truthy (Some "") = false /\ st_sources (mkSt [] [] [] [] [] false) = [] /\
  _get_source (Some "") (mkSt [] [] [] [] [] false)
    = (inl (YPMSError "No sources configured."), mkSt [] [] [] [] [] false).
Proof.
  split; [reflexivity|]. split; [reflexivity|].
  apply get_source_no_sources; reflexivity.
Defined.

(** A named source that is not configured, or configured with an empty
    URL, makes [_get_source] fail with "Unknown source: NAME". *)
Theorem get_source_unknown (name : string) (s : St) :
  name <> "" -> Py.truthy (Dict.get (st_sources s) name) = false ->
  _get_source (Some name) s = (inl (YPMSError ("Unknown source: " ++ name)), s).
Proof.
  intros Hn Hu. unfold _get_source, bind, get_st. simpl.
  apply String.eqb_neq in Hn. rewrite Hn. simpl. rewrite ?Hn, Hu. reflexivity.
Qed.

Lemma get_source_unknown_witness :
  "corp" <> "" /\ Py.truthy (Dict.get (st_sources Demo.st0) "corp") = false /\
  _get_source (Some "corp") Demo.st0 = (inl (YPMSError ("Unknown source: corp")), Demo.st0).
Proof.
  split; [discriminate|]. split; [reflexivity|].
  apply get_source_unknown; [discriminate|reflexivity].
Defined.

(** ** The [add-repo] and [remove-repo] guide steps *)

Lemma add_repo_loop_spec (es : list (string * string)) (s : St) r s' :
  add_repo_loop es s = (r, s') ->
  r = inr tt /\
  (forall k u, Dict.get (st_sources s) k = Some u -> Dict.get (st_sources s') k = Some u) /\
  (forall n u, In (n, u) es -> Dict.mem (st_sources s') n = true).
Proof.
  revert s. induction es as [|[n u] es IH]; intros s H; simpl in H.
  - inversion H; subst. split; [reflexivity|]. split; [auto|]. intros ? ? [].
  - unfold bind, get_st in H.
    destruct (Dict.mem (st_sources s) n) eqn:Em.
    + simpl in H. apply IH in H as [Hr [Hk Hn]]. split; [exact Hr|]. split; [exact Hk|].
      intros n' u' [E|Hin]; [|eapply Hn; eauto].
      inversion E; subst n' u'. apply dict_get_mem in Em as [v Hv].
      apply dict_get_mem. exists v. apply Hk. exact Hv.
    + unfold add_source, bind, get_st, set_sources_and_save in H. simpl in H.
      apply IH in H as [Hr [Hk Hn]]. simpl in Hk. split; [exact Hr|]. split.
      * intros k v Hv. apply Hk. rewrite dict_get_set_other; [exact Hv|].
        intros ->. unfold Dict.mem in Em. rewrite Hv in Em. discriminate.
      * intros n' u' [E|Hin]; [|eapply Hn; eauto].
        inversion E; subst n' u'. apply dict_get_mem. exists u. apply Hk.
        apply dict_get_set_same.
Qed.

(** An [add-repo] step never changes the URL of a source that is already
    configured, and every name among its entries is configured
    afterwards; it always succeeds once its content is accepted. *)
Theorem add_repo_step_keeps_existing (py_str_container : json -> string) (cont : json)
    (es : list (string * string)) (s : St) r s' :
  add_repo_entries py_str_container cont = inr es ->
  _exec_step_add_repo py_str_container cont s = (r, s') ->
  r = inr "" /\
  (forall k u, Dict.get (st_sources s) k = Some u -> Dict.get (st_sources s') k = Some u) /\
  (forall n u, In (n, u) es -> Dict.mem (st_sources s') n = true).
Proof.
  intros He H. unfold _exec_step_add_repo, bind, lift in H. rewrite He in H.
  destruct (add_repo_loop es s) as [r1 s1] eqn:El.
  apply add_repo_loop_spec in El as [-> [Hk Hn]]. inversion H; subst. auto.
Qed.

Lemma add_repo_step_keeps_existing_witness :
  let cont := JList [JObj [("name", JStr "yopr"); ("url", JStr "https://evil.example/x.json")];
                     JObj [("name", JStr "extra"); ("url", JStr "https://extra.example/y.json")]] in
  let es := [("yopr", "https://evil.example/x.json"); ("extra", "https://extra.example/y.json")] in
  add_repo_entries Demo.py_str_container cont = inr es /\
  let '(r, s') := _exec_step_add_repo Demo.py_str_container cont Demo.st0 in
  r = inr "" /\
  (forall k u, Dict.get (st_sources Demo.st0) k = Some u -> Dict.get (st_sources s') k = Some u) /\
  (forall n u, In (n, u) es -> Dict.mem (st_sources s') n = true).
Proof.
  cbv zeta. split; [reflexivity|].
  destruct (_exec_step_add_repo Demo.py_str_container _ Demo.st0) as [r s'] eqn:E.
  refine (add_repo_step_keeps_existing _ _ _ _ _ _ _ E). reflexivity.
Defined.

Lemma dict_pop_keys_incl {V} (d : Dict.t V) k x : In x (map fst (Dict.pop d k)) -> In x (map fst d).
Proof.
  induction d as [|[k0 v0] r IH]; simpl; [auto|].
  destruct (String.eqb k k0); simpl; intuition.
Qed.

Lemma dict_pop_nodup {V} (d : Dict.t V) k : NoDup (map fst d) -> NoDup (map fst (Dict.pop d k)).
Proof.
  induction d as [|[k0 v0] r IH]; simpl; intros Hnd; [constructor|].
  inversion Hnd as [|? ? Hnin Hnd']; subst.
  destruct (String.eqb k k0); [exact Hnd'|]. simpl. constructor; [|auto].
  intros Hin. apply Hnin. eapply dict_pop_keys_incl; eauto.
Qed.

Lemma remove_repo_loop_spec (names : list string) (s : St) r s' :
  NoDup (map fst (st_sources s)) ->
  remove_repo_loop names s = (r, s') ->
  r = inr tt /\ NoDup (map fst (st_sources s')) /\
  (forall n, In n names -> Dict.get (st_sources s') n = None) /\
  (forall k, ~ In k names -> Dict.get (st_sources s') k = Dict.get (st_sources s) k).
Proof.
  revert s. induction names as [|n names IH]; intros s Hnd H; simpl in H.
  - inversion H; subst. split; [reflexivity|]. split; [exact Hnd|]. split; [intros ? []|auto].
  - unfold bind, get_st in H.
    assert (Hstep : exists s1, NoDup (map fst (st_sources s1)) /\
                               Dict.get (st_sources s1) n = None /\
                               (forall k, k <> n -> Dict.get (st_sources s1) k = Dict.get (st_sources s) k) /\
                               remove_repo_loop names s1 = (r, s')).
    { destruct (Dict.mem (st_sources s) n) eqn:Em.
      - unfold remove_source, bind, get_st, set_sources_and_save in H. simpl in H.
        rewrite Em in H. eexists. split; [|split; [|split; [|exact H]]]; simpl.
        + apply dict_pop_nodup. exact Hnd.
        + apply dict_get_pop_same. exact Hnd.
        + intros k Hk. apply dict_get_pop_other. exact Hk.
      - simpl in H. exists s. split; [exact Hnd|]. split; [|split; [auto|exact H]].
        unfold Dict.mem in Em. destruct (Dict.get (st_sources s) n); [discriminate|reflexivity]. }
    destruct Hstep as [s1 [Hnd1 [Hn [Hk H1]]]].
    apply IH in H1 as [Hr [Hnd' [Hin Hout]]]; [|exact Hnd1].
    split; [exact Hr|]. split; [exact Hnd'|]. split.
    + intros m [Em|Hm]; [subst m|auto].
      destruct (in_dec string_dec n names) as [Hm|Hm]; [auto|]. rewrite Hout; auto.
    + intros k Hkn. rewrite Hout by (intros ?; apply Hkn; right; assumption).
      apply Hk. intros ->. apply Hkn. left. reflexivity.
Qed.

(** In a sources map with distinct names, a [remove-repo] step leaves
    none of its names configured and every other source as it was. *)
Theorem remove_repo_step_removes (py_str_container : json -> string) (cont : json)
    (names : list string) (s : St) r s' :
  NoDup (map fst (st_sources s)) ->
  remove_repo_names py_str_container cont = inr names ->
  _exec_step_remove_repo py_str_container cont s = (r, s') ->
  r = inr "" /\ (forall n, In n names -> Dict.get (st_sources s') n = None) /\ (forall k, ~ In k names -> Dict.get (st_sources s') k = Dict.get (st_sources s) k).
Proof.
  intros Hnd He H. unfold _exec_step_remove_repo, bind, lift in H. rewrite He in H.
  destruct (remove_repo_loop names s) as [r1 s1] eqn:El.
  apply remove_repo_loop_spec in El as [-> [_ [Hin Hout]]]; [|exact Hnd].
  inversion H; subst. auto.
Qed.

Lemma remove_repo_step_removes_witness :
  let cont := JObj [("names", JList [JStr "yopr"; JStr "absent"])] in
  NoDup (map fst (st_sources Demo.st0)) /\ remove_repo_names Demo.py_str_container cont = inr ["yopr"; "absent"] /\ let '(r, s') := _exec_step_remove_repo Demo.py_str_container cont Demo.st0 in
  r = inr "" /\ (forall n, In n ["yopr"; "absent"] -> Dict.get (st_sources s') n = None) /\ (forall k, ~ In k ["yopr"; "absent"] -> Dict.get (st_sources s') k = Dict.get (st_sources Demo.st0) k).
Proof.
  cbv zeta. split; [simpl; constructor; [intros []|constructor]|]. split; [reflexivity|].
  destruct (_exec_step_remove_repo Demo.py_str_container _ Demo.st0) as [r s'] eqn:E.
  refine (remove_repo_step_removes _ _ _ _ _ _ _ _ E); [simpl; constructor; [intros []|constructor]|reflexivity].
Defined.

(** ** Dependency strings *)

Lemma lstrip_no_space s : no_space s = true -> Py.lstrip s = s.
Proof.
  destruct s as [|c r]; simpl; [reflexivity|]. unfold no_space; simpl.
  intros H. apply andb_true_iff in H as [H _]. apply negb_true_iff in H. rewrite H. reflexivity.
Qed.

Lemma strip_no_space s : no_space s = true -> Py.strip s = s.
Proof.
  intros H. unfold Py.strip. rewrite lstrip_no_space by exact H.
  unfold Py.rstrip. rewrite lstrip_no_space.
  - rewrite list_ascii_of_string_of_list_ascii, rev_involutive, string_of_list_ascii_of_string.
    reflexivity.
  - unfold no_space in *. rewrite list_ascii_of_string_of_list_ascii.
    apply forallb_forall. intros c Hc. apply in_rev in Hc.
    rewrite forallb_forall in H. auto.
Qed.

Lemma no_space_app a b : no_space (a ++ b) = no_space a && no_space b.
Proof.
  unfold no_space. induction a as [|c r IH]; simpl; [reflexivity|].
  rewrite IH. apply andb_assoc.
Qed.

Lemma contains_app c a b : Py.contains c (a ++ b) = Py.contains c a || Py.contains c b.
Proof. induction a as [|d r IH]; simpl; [reflexivity|]. rewrite IH. apply orb_assoc. Qed.

(** Writing a dependency as [SOURCE:USER/PACKAGE@VERSION] and parsing
    it back gives the three parts, when none of them has whitespace, the
    source and version are non-empty, the source has no [:] and the ref
    has a [/] and no [@]. *)
Theorem parse_dep_roundtrip (py_str_container : json -> string) (src pref ver : string) :
  src <> "" -> ver <> "" ->
  no_space src = true -> no_space pref = true -> no_space ver = true ->
  Py.contains ":" src = false -> Py.contains "/" pref = true -> Py.contains "@" pref = false ->
  _parse_dep py_str_container (JStr (src ++ ":" ++ pref ++ "@" ++ ver)) = inr (Some src, pref, Some ver).
Proof.
  intros Hs Hv Ns Np Nv Cs Cp Ca. unfold _parse_dep, _parse_dep_str.
  rewrite (strip_no_space (src ++ _))
    by (rewrite !no_space_app, Ns, Np, Nv; reflexivity).
  assert (E1 : Py.split_once ":" (src ++ ":" ++ pref ++ "@" ++ ver) = Some (src, pref ++ "@" ++ ver))
    by (apply split_once_spec; auto).
  rewrite E1, contains_app, Cp. simpl orb. cbv iota beta.
  rewrite (strip_no_space src Ns). apply String.eqb_neq in Hs. rewrite Hs.
  unfold split_version.
  assert (E2 : Py.split_once "@" (pref ++ "@" ++ ver) = Some (pref, ver))
    by (apply split_once_spec; auto).
  rewrite E2, (strip_no_space ver Nv), (strip_no_space pref Np).
  apply String.eqb_neq in Hv. rewrite Hv. reflexivity.
Qed.

Lemma parse_dep_roundtrip_witness :
  ("yopr" <> "" /\ "v1" <> "" /\ no_space "yopr" = true /\ no_space "a/lib" = true /\
   no_space "v1" = true /\ Py.contains ":" "yopr" = false /\ Py.contains "/" "a/lib" = true /\
   Py.contains "@" "a/lib" = false) /\
  _parse_dep Demo.py_str_container (JStr ("yopr" ++ ":" ++ "a/lib" ++ "@" ++ "v1"))
  = inr (Some "yopr", "a/lib", Some "v1").
Proof.
  split; [repeat split; try reflexivity; discriminate|].
  apply parse_dep_roundtrip; try reflexivity; discriminate.
Defined.

(** ** Release-tag resolution *)

(** [resolve_release_tag] returns [None] exactly when no tag is given,
    the package has no default and no [latest] alias, and its release
    list is empty. *)
Theorem resolve_release_tag_none (pi : PkgInfo) (tag : option string) :
  resolve_release_tag pi tag = None <->
  Py.truthy tag = false /\ Py.truthy (pi_default pi) = false /\
  Dict.get (pi_alias pi) "latest" = None /\ pi_list pi = [].
Proof.
  unfold resolve_release_tag, Py.truthy.
  destruct tag as [t|]; destruct (pi_default pi) as [d|];
    destruct (Dict.get (pi_alias pi) "latest") as [l|]; destruct (pi_list pi) as [|x r];
    repeat (simpl; match goal with
                   | |- context [String.eqb ?a ?b] => destruct (String.eqb a b)
                   | |- context [match Dict.get (pi_alias pi) ?k with _ => _ end] =>
                       destruct (Dict.get (pi_alias pi) k)
                   end);
    split; intros H; try discriminate H; try (decompose [and] H; discriminate); repeat split.
Qed.

(** ** Placeholder substitution *)

Lemma replace_aux_absent (c : ascii) (o new : string) (s : string) :
  Py.contains c s = false -> Py.replace_aux (String c o) new O s = s.
Proof.
  induction s as [|d r IH]; simpl; intros H; [reflexivity|].
  apply orb_false_iff in H as [H1 H2].
  destruct (ascii_dec c d) as [->|_]; [rewrite Ascii.eqb_refl in H1; discriminate|].
  rewrite IH by exact H2. reflexivity.
Qed.

(** A step text with no [{] comes out of [_subst] unchanged, whatever
    the environment directory, host and context. *)
Theorem subst_without_braces (h : Host) (s env_dir : string) (ctx : Ctx) :
  Py.contains "{" s = false -> _subst h s env_dir ctx = s.
Proof.
  intros H. unfold _subst, Py.replace.
  do 6 rewrite (replace_aux_absent _ _ _ s H). reflexivity.
Qed.

Lemma subst_without_braces_witness :
  Py.contains "{" "echo done" = false /\
  _subst Demo.host "echo done" "/envs/default" Demo.ctx = "echo done".
Proof. split; [reflexivity | apply subst_without_braces; reflexivity]. Defined.

(** ** Guide execution *)

Section GuideProps.

Variable py_str_container : json -> string.
Variable host : Host.
Variable ext_step : string -> json -> string -> Ctx -> Files -> (Exn + string) * Files.
Variable fetch_package_info : Source -> string -> string -> Exn + PkgInfo.
Variable fetch_release_info : PkgInfo -> option string -> Exn + Release.

Local Abbreviation loop := (steps_loop py_str_container host ext_step fetch_package_info
                              fetch_release_info).
Local Abbreviation guide := (_execute_guide_steps py_str_container host ext_step
                               fetch_package_info fetch_release_info).

Lemma steps_loop_filter inst runf env_dir env ctx force steps ran last (s : St) :
  loop inst runf env_dir env ctx force steps ran last s =
  loop inst runf env_dir env ctx force (filter (fun st => _when_matches host (s_when st)) steps)
       ran last s.
Proof.
  revert ran last s. induction steps as [|st r IH]; intros ran last s; simpl; [reflexivity|].
  destruct (_when_matches host (s_when st)) eqn:E; simpl; [|apply IH].
  rewrite E. simpl. apply bind_ext. intros res s'. apply IH.
Qed.

(** Steps whose [when] clause does not match the host are skipped as if
    absent: a guide runs exactly as the list of its matching steps. *)
Theorem execute_guide_skips_unmatched inst runf g env_dir ctx env force (s : St) :
  guide inst runf g env_dir ctx env force s =
  guide inst runf (GSteps (filter (fun st => _when_matches host (s_when st))
                                  (_normalize_guide_to_steps g)))
        env_dir ctx env force s.
Proof.
  unfold _execute_guide_steps, bind.
  rewrite steps_loop_filter. reflexivity.
Qed.

Lemma steps_loop_none inst runf env_dir env ctx force steps ran last (s : St) :
  Forall (fun st => s_type st = Some "none") steps ->
  loop inst runf env_dir env ctx force steps ran last s =
  (inr (ran || existsb (fun st => _when_matches host (s_when st)) steps, last), s).
Proof.
  revert ran. induction steps as [|st r IH]; intros ran Hn; simpl.
  - rewrite orb_false_r. reflexivity.
  - inversion Hn as [|x y Ht Hr]; subst.
    destruct (_when_matches host (s_when st)); simpl.
    + unfold bind, exec_step. rewrite Ht. simpl. rewrite IH by exact Hr.
      rewrite orb_true_r. reflexivity.
    + rewrite IH by exact Hr. reflexivity.
Qed.

(** A guide made only of [none] steps, one of which matches the host,
    succeeds with the empty result and changes nothing. *)
Theorem execute_guide_none_steps inst runf g env_dir ctx env force (s : St) :
  Forall (fun st => s_type st = Some "none") (_normalize_guide_to_steps g) ->
  existsb (fun st => _when_matches host (s_when st)) (_normalize_guide_to_steps g) = true ->
  guide inst runf g env_dir ctx env force s = (inr "", s).
Proof.
  intros Hn He. unfold _execute_guide_steps, bind.
  rewrite steps_loop_none by exact Hn. rewrite He. reflexivity.
Qed.

End GuideProps.

Lemma execute_guide_none_steps_witness :
  let g := GSteps [mkStep (Some "none") JNull (Some (mkWhen (Some ["windows"]) None));
                   mkStep (Some "none") JNull None] in
  (Forall (fun st => s_type st = Some "none") (_normalize_guide_to_steps g) /\
   existsb (fun st => _when_matches Demo.host (s_when st)) (_normalize_guide_to_steps g) = true) /\
  _execute_guide_steps Demo.py_str_container Demo.host Demo.ext_step Demo.fetch_package_info
    Demo.fetch_release_info (fun _ _ _ _ _ _ => ret "") (fun _ _ _ _ _ _ _ => ret "")
    g "/envs/default" Demo.ctx "default" false Demo.st0 = (inr "", Demo.st0).
Proof.
  cbv zeta. split; [split; [repeat constructor | reflexivity]|].
  apply execute_guide_none_steps; [repeat constructor | reflexivity].
Defined.

(** ** Operation plan, [install], [upgrade], [autoremove] *)

Lemma dict_get_in_keys {V} (d : Dict.t V) k v : Dict.get d k = Some v -> In k (map fst d).
Proof.
  induction d as [|[k' v'] r IH]; simpl; [discriminate|].
  destruct (String.eqb k k') eqn:E; intros H.
  - apply String.eqb_eq in E. left. congruence.
  - right. auto.
Qed.

Lemma forall_removelast {A} (P : A -> Prop) (l : list A) : Forall P l -> Forall P (removelast l).
Proof.
  induction l as [|x r IH]; simpl; intros H; [constructor|].
  inversion H; subst. destruct r; [constructor|]. constructor; auto.
Qed.

(** Peel the first computation of a [bind] that ended normally. *)
Ltac bind_ok H :=
  let e := fresh "e" in let He := fresh "He" in let Hr := fresh "Hr" in
  let a := fresh "a" in let s1 := fresh "s1" in let H1 := fresh "H1" in
  apply bind_inv in H as [[e [He Hr]]|[a [s1 [H1 H]]]]; [discriminate Hr|].

Lemma get_source_ok (o : option string) (s : St) x s' :
  _get_source o s = (inr x, s') ->
  s' = s /\ In (src_name x) (map fst (st_sources s)) /\
  (Py.truthy o = true -> src_name x = or_s o "").
Proof.
  intros H. pose proof (get_source_pure o s _ _ H) as ->. split; [reflexivity|].
  unfold _get_source, get_st in H. bind_ok H. injection H1 as <- <-.
  bind_ok H.
  assert (Ha : Py.truthy o = true -> a = or_s o "").
  { intros Ht. rewrite Ht in H1. injection H1 as <- _. reflexivity. }
  destruct (Py.truthy (Dict.get (st_sources s) a)) eqn:Eu; [|discriminate H].
  injection H as <- _. simpl. split; [|exact Ha].
  destruct (Dict.get (st_sources s) a) eqn:E; [|discriminate Eu].
  eapply dict_get_in_keys; eauto.
Qed.

Create HintDb purity.
#[local] Hint Resolve pure_st_bind pure_st_ret pure_st_raise pure_st_lift pure_st_get
  get_source_pure : purity.

Lemma is_installed_pure env sname ref : pure_st (is_installed env sname ref).
Proof. unfold is_installed. auto with purity. Qed.
#[local] Hint Resolve is_installed_pure : purity.

Lemma try_any_pure {A} (m : M A) (s : St) : pure_st m -> try_any m s = (inr tt, s).
Proof.
  intros H. unfold try_any. destruct (m s) as [r s'] eqn:E. apply H in E. subst. reflexivity.
Qed.

Section PlanCore.

Variable py_str_container : json -> string.
Variable fetch_package_info : Source -> string -> string -> Exn + PkgInfo.
Variable fetch_release_info : PkgInfo -> option string -> Exn + Release.
Variable fetch_index : Source -> Exn + unit.

Lemma plan_deps_ok sn entries prov (s : St) prov' infos s' :
  In sn (map fst (st_sources s)) ->
  plan_deps py_str_container fetch_package_info fetch_release_info sn entries prov s
  = (inr (prov', infos), s') ->
  s' = s /\ Forall (fun '(n, _, _) => In n (map fst (st_sources s))) infos.
Proof.
  intros Hsn. revert prov prov' infos s'.
  induction entries as [|[[dsrc dref] dver] r IH]; simpl; intros prov prov' infos s' H.
  - injection H as _ <- <-. auto.
  - bind_ok H. apply lift_inv in H1 as [-> _]. destruct a as [u p].
    bind_ok H. apply get_source_ok in H1 as [-> [Hin Ht]].
    bind_ok H. apply lift_inv in H1 as [-> _].
    bind_ok H. apply lift_inv in H1 as [-> _].
    bind_ok H. match type of H1 with _ = (inr ?x, _) => destruct x as [prv rest] end.
    apply IH in H1 as [-> Hrest].
    injection H as _ <- <-. split; [reflexivity|]. constructor; [|exact Hrest].
    set (X := or_s dsrc sn) in *. change (In X (map fst (st_sources s))).
    destruct (Py.truthy (Some X)) eqn:Et.
    + specialize (Ht eq_refl). unfold or_s in Ht at 1. simpl in Et.
      destruct (String.eqb X "") eqn:E0; [discriminate Et|]. rewrite <- Ht. exact Hin.
    + simpl in Et. apply negb_false_iff, String.eqb_eq in Et. rewrite Et.
      subst X. destruct dsrc as [d|]; simpl in Et; [destruct (String.eqb d "") eqn:Ed|];
        [congruence| apply String.eqb_neq in Ed; congruence | congruence].
Qed.

Lemma plan_ops_ok env known prov infos notes (s : St) ops notes' s' :
  Forall (fun '(n, _, _) => In n known) infos ->
  plan_ops env known prov infos notes s = (inr (ops, notes'), s') ->
  s' = s /\ notes' = notes /\
  Forall (fun op => op_footnote op = None /\ op_kind op <> "target" /\
                    planned_kind_ok (st_ledger s) env op) ops.
Proof.
  revert notes ops notes' s'.
  induction infos as [|[[n ref] res] r IH]; simpl; intros notes ops notes' s' Hk H.
  - injection H as <- <- <-. auto.
  - inversion Hk as [|x y Hn Hr]; subst.
    unfold is_installed, get_st, bind at 1 in H. unfold bind at 1 in H. unfold ret at 1 in H.
    assert (Ek : existsb (String.eqb n) known = true) by (apply existsb_eqb_In; exact Hn).
    rewrite Ek in H. simpl in H.
    apply bind_inv in H as [[e [He Hr']]|[[ops1 notes1] [s1 [H1 H]]]]; [discriminate Hr'|].
    apply IH in H1 as [-> [-> Hops]]; [|exact Hr].
    injection H as <- <- <-. repeat split; auto. constructor; [|exact Hops].
    unfold planned_kind_ok. simpl.
    destruct (Dict.mem _ _) eqn:Em; simpl; repeat split; auto; discriminate.
Qed.

Lemma build_operation_plan_ok pref env ver sn (s : St) ops notes s' :
  _build_operation_plan py_str_container fetch_package_info fetch_release_info fetch_index
                        pref env ver sn s = (inr (ops, notes), s') ->
  s' = s /\ notes = [] /\
  Forall (fun op => op_footnote op = None /\ planned_kind_ok (st_ledger s) env op) ops /\
  Forall (fun op => op_kind op <> "target") (removelast ops).
Proof.
  unfold _build_operation_plan. intros H.
  bind_ok H. apply lift_inv in H1 as [-> _]. destruct a as [u p].
  bind_ok H. apply get_source_ok in H1 as [-> [Hin _]].
  bind_ok H. apply lift_inv in H1 as [-> _].
  bind_ok H. apply lift_inv in H1 as [-> _].
  bind_ok H. apply lift_inv in H1 as [-> _].
  bind_ok H. injection H1 as <- <-.
  bind_ok H. apply lift_inv in H1 as [-> _].
  bind_ok H. match type of H1 with _ = (inr ?x, _) => destruct x as [prv infos] end.
  apply plan_deps_ok in H1 as [-> Hinfos]; [|exact Hin].
  bind_ok H. match type of H1 with _ = (inr ?x, _) => destruct x as [ops1 notes1] end.
  apply plan_ops_ok in H1 as [-> [-> Hops]]; [|exact Hinfos].
  unfold get_st, bind in H. cbv zeta in H.
  assert (Hd : Forall (fun op => op_footnote op = None /\ planned_kind_ok (st_ledger s) env op) ops1)
    by (eapply Forall_impl; [|exact Hops]; simpl; tauto).
  assert (Ht : Forall (fun op => op_kind op <> "target") ops1)
    by (eapply Forall_impl; [|exact Hops]; simpl; tauto).
  destruct (Dict.get _ _) as [installed|] eqn:Eg;
    [destruct (opt_eqb _ _)|]; injection H as <- <- <-;
    (split; [reflexivity|]); (split; [reflexivity|]).
  - split; [exact Hd|]. apply forall_removelast, Ht.
  - rewrite removelast_last. split; [|exact Ht].
    apply Forall_app; split; [exact Hd|]. constructor; [|constructor]. split; [reflexivity|].
    unfold planned_kind_ok, Dict.mem; cbv beta zeta iota delta [op_kind op_source op_package_ref].
    replace (u ++ String "/" p) with (u ++ "/" ++ p) by reflexivity; rewrite Eg.
    left. auto.
  - rewrite removelast_last. split; [|exact Ht].
    apply Forall_app; split; [exact Hd|]. constructor; [|constructor]. split; [reflexivity|].
    unfold planned_kind_ok, Dict.mem; cbv beta zeta iota delta [op_kind op_source op_package_ref].
    replace (u ++ String "/" p) with (u ++ "/" ++ p) by reflexivity; rewrite Eg.
    right; right. auto.
Qed.

(** A successful operation plan leaves the state as it was and never
    carries a supplementary note: every dependency's source has been
    looked up in the configured sources, so it is always a known source
    and no footnote is ever attached. *)
Theorem build_operation_plan_no_notes pref env ver sn (s : St) ops notes s' :
  _build_operation_plan py_str_container fetch_package_info fetch_release_info fetch_index
                        pref env ver sn s = (inr (ops, notes), s') ->
  s' = s /\ notes = [] /\ Forall (fun op => op_footnote op = None) ops.
Proof.
  intros H. apply build_operation_plan_ok in H as (-> & -> & Hops & _).
  repeat split. eapply Forall_impl; [|exact Hops]. simpl. tauto.
Qed.

(** In a successful operation plan, an operation is an [update] exactly
    when its package is recorded in [env], and an [install] or the
    [target] otherwise; only the last operation can be the [target]. *)
Theorem build_operation_plan_kinds pref env ver sn (s : St) ops notes s' :
  _build_operation_plan py_str_container fetch_package_info fetch_release_info fetch_index
                        pref env ver sn s = (inr (ops, notes), s') ->
  Forall (planned_kind_ok (st_ledger s) env) ops /\
  Forall (fun op => op_kind op <> "target") (removelast ops).
Proof.
  intros H. apply build_operation_plan_ok in H as (_ & _ & Hops & Hl).
  split; [|exact Hl]. eapply Forall_impl; [|exact Hops]. simpl. tauto.
Qed.

Lemma plan_deps_pure sn entries prov :
  pure_st (plan_deps py_str_container fetch_package_info fetch_release_info sn entries prov).
Proof.
  revert prov. induction entries as [|[[ds dr] dv] r IH]; intros prov; simpl; [auto with purity|].
  apply pure_st_bind; [auto with purity|]. intros [u p].
  do 3 (apply pure_st_bind; [auto with purity|]; intros ?).
  apply pure_st_bind; [apply IH|]. intros [? ?]. auto with purity.
Qed.

Lemma plan_ops_pure env known prov infos notes :
  pure_st (plan_ops env known prov infos notes).
Proof.
  revert notes. induction infos as [|[[n rf] rs] r IH]; intros notes; simpl; [auto with purity|].
  apply pure_st_bind; [auto with purity|]. intros b.
  destruct (if negb _ then _ else _) as [foot notes'].
  apply pure_st_bind; [apply IH|]. intros [? ?]. auto with purity.
Qed.

Lemma build_operation_plan_pure pref env ver sn :
  pure_st (_build_operation_plan py_str_container fetch_package_info fetch_release_info fetch_index
                                 pref env ver sn).
Proof.
  unfold _build_operation_plan.
  apply pure_st_bind; [auto with purity|]. intros [u p].
  do 6 (apply pure_st_bind; [auto with purity|]; intros ?).
  apply pure_st_bind; [apply plan_deps_pure|]. intros [? ?].
  apply pure_st_bind; [apply plan_ops_pure|]. intros [? ?].
  apply pure_st_bind; [auto with purity|]. intros ?.
  destruct (Dict.get _ _); [destruct (opt_eqb _ _)|]; auto with purity.
Qed.

End PlanCore.

Section PlanProps.

Variable py_str_container : json -> string.
Variable host : Host.
Variable ext_step : string -> json -> string -> Ctx -> Files -> (Exn + string) * Files.
Variable fetch_package_info : Source -> string -> string -> Exn + PkgInfo.
Variable fetch_release_info : PkgInfo -> option string -> Exn + Release.
Variable envs_dir now : string.
Variable stdin_yes : bool.
Variable fetch_index : Source -> Exn + unit.

Local Abbreviation inst := (install py_str_container host ext_step fetch_package_info
                              fetch_release_info envs_dir now stdin_yes fetch_index).


Lemma check_update_compat_pure env ts tp nv :
  pure_st (_check_update_compat py_str_container fetch_package_info fetch_release_info
                                env ts tp nv).
Proof.
  unfold _check_update_compat. apply pure_st_bind; [apply find_dependents_pure|].
  auto with purity.
Qed.

(** An [update] operation blocked by dependents (without [force], or
    with [force] but no [assume_yes] and a declined prompt) ends the
    install loop at once: it returns the environment directory, runs
    none of the remaining operations and leaves the state unchanged. *)
Theorem install_ops_blocked_update fuel env explicit assume_yes force env_dir op ops (s : St) m ms :
  op_kind op = "update" ->
  fst (_check_update_compat py_str_container fetch_package_info fetch_release_info env
         (op_source op) (op_package_ref op) (or_s (op_version op) "") s) = inr (m :: ms) ->
  force = false \/ (assume_yes = false /\ stdin_yes = false) ->
  install_ops py_str_container host ext_step fetch_package_info fetch_release_info envs_dir now
              stdin_yes fuel env explicit assume_yes force env_dir (op :: ops) s = (inr env_dir, s).
Proof.
  intros Hk Hc Hf. simpl. rewrite Hk. simpl.
  unfold bind at 1.
  pose proof (check_update_compat_pure env (op_source op) (op_package_ref op)
                (or_s (op_version op) "") s) as Hp.
  destruct (_check_update_compat _ _ _ _ _ _ _ s) as [r s'] eqn:E.
  specialize (Hp r s' eq_refl). subst s'. simpl in Hc. subst r.
  destruct Hf as [-> | [-> ->]]; [reflexivity|]. destruct force; reflexivity.
Qed.

Lemma report_loop_lines fuel g en force metas (s : St) lines s' :
  report_loop py_str_container host ext_step fetch_package_info fetch_release_info envs_dir now
              stdin_yes fuel g en force metas s = (inr lines, s') ->
  Forall (fun line => exists meta, In meta metas /\ report_line_for en meta line) lines.
Proof.
  revert s lines s'. induction metas as [|meta r IH]; simpl; intros s lines s' H.
  - injection H as <- _. constructor.
  - apply bind_inv in H as [[e [He Hr]]|[l1 [s1 [H1 H]]]]; [discriminate Hr|].
    apply bind_inv in H as [[e [He Hr]]|[l2 [s2 [H2 H]]]]; [discriminate Hr|].
    injection H as <- _. apply Forall_app. split.
    + unfold run_report in H1.
      destruct (run _ _ _ _ _ _ _ _ _ _ _ _ _ _ _ _ s) as [[[msg|msg]|res] s3];
        [destruct (Py.contains_sub _ _)| |]; inversion H1; subst; repeat constructor;
        exists meta; (split; [left; reflexivity|]); unfold report_line_for;
        first [left; eexists; reflexivity | right; eexists; reflexivity].
    + eapply Forall_impl; [|exact (IH _ _ _ H2)]. simpl.
      intros line [m [Hm Hl]]. exists m. auto.
Qed.

(** Every line [autoremove] returns reports a non-explicit record of the
    ledger snapshot it started from: [ENV:PACKAGE -> RESULT] or
    [ENV:PACKAGE [ERROR] MESSAGE]. *)
Theorem autoremove_reports_non_explicit fuel env force (s : St) lines s' :
  autoremove py_str_container host ext_step fetch_package_info fetch_release_info envs_dir now
             stdin_yes fuel env force s = (inr lines, s') ->
  Forall (fun line => exists env_name pkgs meta,
            In (env_name, pkgs) (list_installed (st_ledger s) env) /\ In meta (Dict.values pkgs) /\
            r_explicit meta = false /\ report_line_for env_name meta line) lines.
Proof.
  unfold autoremove, bind at 1, get_st.
  generalize (list_installed (st_ledger s) env) as envs. intros envs.
  revert s lines s'. induction envs as [|[en pkgs] r IH]; simpl; intros s lines s' H.
  - injection H as <- _. constructor.
  - apply bind_inv in H as [[e [He Hr]]|[l1 [s1 [H1 H]]]]; [discriminate Hr|].
    apply bind_inv in H as [[e [He Hr]]|[l2 [s2 [H2 H]]]]; [discriminate Hr|].
    injection H as <- _. apply Forall_app. split.
    + apply report_loop_lines in H1. eapply Forall_impl; [|exact H1]. simpl.
      intros line [m [Hm Hl]]. apply filter_In in Hm as [Hm Hx]. apply negb_true_iff in Hx.
      exists en, pkgs, m. auto.
    + eapply Forall_impl; [|exact (IH _ _ _ H2)]. simpl.
      intros line (en' & pk & m & Hin & Hrest). exists en', pk, m. auto.
Qed.

Lemma refresh_loop_pure names : pure_st (refresh_loop fetch_index names).
Proof.
  induction names as [|n r IH]; simpl; [auto with purity|].
  apply pure_st_bind; [auto with purity|]. intros src.
  apply pure_st_bind; auto with purity.
Qed.

(** Every line [upgrade] returns reports a record of the ledger as it
    was when [upgrade] started (refreshing the sources changes nothing). *)
Theorem upgrade_reports_ledger_records fuel env force (s : St) lines s' :
  upgrade py_str_container host ext_step fetch_package_info fetch_release_info envs_dir now
          stdin_yes fetch_index fuel env force s = (inr lines, s') ->
  Forall (fun line => exists env_name pkgs meta,
            In (env_name, pkgs) (list_installed (st_ledger s) env) /\ In meta (Dict.values pkgs) /\
            report_line_for env_name meta line) lines.
Proof.
  unfold upgrade. intros H.
  apply bind_inv in H as [[e [He Hr]]|[u [s0 [H0 H]]]]; [discriminate Hr|].
  assert (s0 = s) as ->.
  { assert (Hp : pure_st (refresh_sources fetch_index)).
    { unfold refresh_sources. apply pure_st_bind; [apply pure_st_get|].
      intros; apply refresh_loop_pure. }
    exact (Hp _ _ _ H0). }
  clear H0. unfold bind at 1, get_st in H. revert H.
  generalize (list_installed (st_ledger s) env) as envs. intros envs.
  revert s lines s'. induction envs as [|[en pkgs] r IH]; simpl; intros s lines s' H.
  - injection H as <- _. constructor.
  - apply bind_inv in H as [[e [He Hr]]|[l1 [s1 [H1 H]]]]; [discriminate Hr|].
    apply bind_inv in H as [[e [He Hr]]|[l2 [s2 [H2 H]]]]; [discriminate Hr|].
    injection H as <- _. apply Forall_app. split.
    + apply report_loop_lines in H1. eapply Forall_impl; [|exact H1]. simpl.
      intros line [m [Hm Hl]]. exists en, pkgs, m. auto.
    + eapply Forall_impl; [|exact (IH _ _ _ H2)]. simpl.
      intros line (en' & pk & m & Hin & Hrest). exists en', pk, m. auto.
Qed.

End PlanProps.

Lemma build_operation_plan_no_notes_witness :
  let ops := [mkOp "update" "yopr" "a/lib" (Some "v1") None;
              mkOp "target" "yopr" "a/tool" (Some "v1") None] in
  _build_operation_plan Demo.py_str_container Demo.fetch_package_info Demo.fetch_release_info_tool
    Demo.fetch_index "a/tool" "default" None None Demo.st_lib = (inr (ops, []), Demo.st_lib) /\
  (Demo.st_lib = Demo.st_lib /\ @nil (nat * string) = [] /\
   Forall (fun op => op_footnote op = None) ops).
Proof.
  cbv zeta. split; [vm_compute; reflexivity|].
  apply (build_operation_plan_no_notes Demo.py_str_container Demo.fetch_package_info
           Demo.fetch_release_info_tool Demo.fetch_index "a/tool" "default" None None Demo.st_lib).
  vm_compute; reflexivity.
Defined.

Lemma build_operation_plan_kinds_witness :
  let ops := [mkOp "update" "yopr" "a/lib" (Some "v1") None;
              mkOp "target" "yopr" "a/tool" (Some "v1") None] in
  _build_operation_plan Demo.py_str_container Demo.fetch_package_info Demo.fetch_release_info_tool
    Demo.fetch_index "a/tool" "default" None None Demo.st_lib = (inr (ops, []), Demo.st_lib) /\
  (Forall (planned_kind_ok (st_ledger Demo.st_lib) "default") ops /\
   Forall (fun op => op_kind op <> "target") (removelast ops)).
Proof.
  cbv zeta. split; [vm_compute; reflexivity|].
  apply (build_operation_plan_kinds Demo.py_str_container Demo.fetch_package_info
           Demo.fetch_release_info_tool Demo.fetch_index "a/tool" "default" None None Demo.st_lib
           _ [] Demo.st_lib).
  vm_compute; reflexivity.
Defined.


Lemma install_ops_blocked_update_witness :
  let op := mkOp "update" "yopr" "a/lib" (Some "v2") None in
  (op_kind op = "update" /\
   fst (_check_update_compat Demo.py_str_container Demo.fetch_package_info
          Demo.fetch_release_info_tool "default" (op_source op) (op_package_ref op)
          (or_s (op_version op) "") Demo.st_tool)
   = inr ["yopr/a/tool@v1 requires yopr/a/lib@v1, but planned v2"]) /\
  install_ops Demo.py_str_container Demo.host Demo.ext_step Demo.fetch_package_info
    Demo.fetch_release_info_tool "/envs" "now" false 5 "default" true false false "/envs/default"
    [op; mkOp "install" "yopr" "a/app" None None] Demo.st_tool = (inr "/envs/default", Demo.st_tool).
Proof.
  cbv zeta. split; [split; [reflexivity | vm_compute; reflexivity]|].
  apply (install_ops_blocked_update Demo.py_str_container Demo.host Demo.ext_step
           Demo.fetch_package_info Demo.fetch_release_info_tool "/envs" "now" false 5 "default"
           true false false "/envs/default" (mkOp "update" "yopr" "a/lib" (Some "v2") None)
           [mkOp "install" "yopr" "a/app" None None] Demo.st_tool
           "yopr/a/tool@v1 requires yopr/a/lib@v1, but planned v2" []);
    [reflexivity | vm_compute; reflexivity | left; reflexivity].
Defined.

Lemma autoremove_reports_non_explicit_witness :
  let s1 := mkSt (st_sources Demo.st_lib) (st_sources_json Demo.st_lib) (st_ledger Demo.st_lib)
                 [] ["/envs/default"] false in
  let lines := ["default:a/lib [ERROR] command failed"] in
  autoremove Demo.py_str_container Demo.host Demo.ext_step Demo.fetch_package_info
    Demo.fetch_release_info "/envs" "now" false 5 None false Demo.st_lib = (inr lines, s1) /\
  Forall (fun line => exists env_name pkgs meta,
            In (env_name, pkgs) (list_installed (st_ledger Demo.st_lib) None) /\
            In meta (Dict.values pkgs) /\ r_explicit meta = false /\
            report_line_for env_name meta line) lines.
Proof.
  cbv zeta. split; [vm_compute; reflexivity|].
  apply (autoremove_reports_non_explicit Demo.py_str_container Demo.host Demo.ext_step
           Demo.fetch_package_info Demo.fetch_release_info "/envs" "now" false 5 None false
           Demo.st_lib _
           (mkSt (st_sources Demo.st_lib) (st_sources_json Demo.st_lib) (st_ledger Demo.st_lib)
                 [] ["/envs/default"] false)).
  vm_compute; reflexivity.
Defined.

Lemma upgrade_reports_ledger_records_witness :
  let bad := mkRec "yopr" "bad" None true "now" in
  let s0 := mkSt (st_sources Demo.st0) (st_sources_json Demo.st0)
                 [("default", [("yopr:bad", bad)])] [] [] false in
  let lines := ["default:bad [ERROR] Package ref must be 'USER/PACKAGE'"] in
  upgrade Demo.py_str_container Demo.host Demo.ext_step Demo.fetch_package_info
    Demo.fetch_release_info "/envs" "now" false Demo.fetch_index 5 None false s0 = (inr lines, s0) /\
  Forall (fun line => exists env_name pkgs meta,
            In (env_name, pkgs) (list_installed (st_ledger s0) None) /\
            In meta (Dict.values pkgs) /\ report_line_for env_name meta line) lines.
Proof.
  cbv zeta. split; [vm_compute; reflexivity|].
  apply (upgrade_reports_ledger_records Demo.py_str_container Demo.host Demo.ext_step
           Demo.fetch_package_info Demo.fetch_release_info "/envs" "now" false Demo.fetch_index 5
           None false _ _
           (mkSt (st_sources Demo.st0) (st_sources_json Demo.st0)
                 [("default", [("yopr:bad", mkRec "yopr" "bad" None true "now")])] [] [] false)).
  vm_compute; reflexivity.
Defined.

(** ** [ypms-launcher.py] *)

(** With [selfupdate] among the arguments the launcher never starts
    ypms.py: it returns after a successful update, exits with status 1
    after a failed one, or propagates an unexpected error. *)
Theorem launcher_selfupdate_never_launches (args : list string) (main_exists : bool)
    (upd : Launcher.UpdateOutcome) :
  In "selfupdate" args ->
  Launcher.main args main_exists upd =
  match upd with
  | Launcher.UpdOk => Launcher.Return
  | Launcher.UpdFailed => Launcher.Exit 1
  | Launcher.UpdCrashed => Launcher.Crash
  end.
Proof.
  intros H. unfold Launcher.main.
  assert (E : existsb (String.eqb "selfupdate") args = true) by (apply existsb_eqb_In; exact H).
  rewrite E, orb_true_r. destruct upd; reflexivity.
Qed.

Lemma launcher_selfupdate_never_launches_witness :
  In "selfupdate" ["selfupdate"] /\
  Launcher.main ["selfupdate"] true Launcher.UpdFailed = Launcher.Exit 1.
Proof.
  split; [left; reflexivity|].
  exact (launcher_selfupdate_never_launches ["selfupdate"] true Launcher.UpdFailed
           (or_introl eq_refl)).
Defined.

(** Without [selfupdate], an installed ypms.py is started at once with
    the arguments (no update is attempted); on the first run the update
    comes first, and if it fails the launcher exits with status 2. *)
Theorem launcher_plain_run (args : list string) (main_exists : bool)
    (upd : Launcher.UpdateOutcome) :
  ~ In "selfupdate" args ->
  Launcher.main args main_exists upd =
  if main_exists then Launcher.Launch args
  else match upd with
       | Launcher.UpdOk => Launcher.Launch args
       | Launcher.UpdFailed => Launcher.Exit 2
       | Launcher.UpdCrashed => Launcher.Crash
       end.
Proof.
  intros H. unfold Launcher.main.
  assert (E : existsb (String.eqb "selfupdate") args = false).
  { destruct (existsb _ _) eqn:E; [|reflexivity]. apply existsb_eqb_In in E. contradiction. }
  rewrite E. destruct main_exists, upd; reflexivity.
Qed.

Lemma launcher_plain_run_witness :
  ~ In "selfupdate" ["install"; "a/lib"] /\
  Launcher.main ["install"; "a/lib"] false Launcher.UpdFailed = Launcher.Exit 2.
Proof.
  assert (H : ~ In "selfupdate" ["install"; "a/lib"])
    by (simpl; intros [E|[E|[]]]; discriminate E).
  split; [exact H|].
  exact (launcher_plain_run ["install"; "a/lib"] false Launcher.UpdFailed H).
Defined.
